(** * FreeIPA MCP server: session manager, result normalizer, handlers

    A shallow embedding of [freeipa_mcp_server.py].  Python values that
    travel through the program are modelled by an object store (so that
    aliasing and self-reference can be expressed), the two module globals
    [freeipa_client] and [freeipa_connected] by a record that is threaded
    through a small state-and-exception monad, and the backend RPC client
    ([python_freeipa.ClientMeta]) by an oracle that answers every call from
    the history of the calls issued before it.  Logging and [print] are
    not modelled. *)

From Stdlib Require Import String Ascii List ZArith Bool Lia.
From Stdlib Require Import Floats.SpecFloat.
Import ListNotations.
Open Scope string_scope.
Set Warnings "-register-all".

(** ** Python values *)

(** Exceptions that [except Exception] catches, observed through [str(e)]. *)
Inductive exn : Type :=
| Exception (message : string).

Definition str_exn (e : exn) : string :=
  match e with Exception m => m end.

(** The outcome of evaluating a Python expression. *)
Inductive outcome (A : Type) : Type :=
| Returns (a : A)
| Raises (e : exn).
Arguments Returns {A} a.
Arguments Raises {A} e.

Definition ref := nat.

(** A dictionary key: a [str], or any other hashable object, of which the
    program looks at [str(key)] only. *)
Inductive pykey : Type :=
| KStr (s : string)
| KOther (str_result : outcome string).

(** The content of an object.  Containers hold references into the store.
    [NOther] is an object of any other type; the program looks at
    [str(obj)] only, attribute access and iteration on it raise. *)
Inductive node : Type :=
| NNone
| NBool (b : bool)
| NInt (z : Z)
| NFloat (f : spec_float)
| NStr (s : string)
| NList (items : list ref)
| NTuple (items : list ref)
| NDict (items : list (pykey * ref))
| NOther (str_result : outcome string).

Definition store := ref -> node.

(** What the handlers hand back to the dispatcher: freshly built values. *)
Inductive jvalue : Type :=
| JNull
| JBool (b : bool)
| JInt (z : Z)
| JFloat (f : spec_float)
| JStr (s : string)
| JList (items : list jvalue)
| JDict (items : list (string * jvalue)).

(** [result[k] = v] on an insertion-ordered dict: an existing key keeps its
    place and takes the new value, a new key goes last. *)
Fixpoint dict_set (d : list (string * jvalue)) (k : string) (v : jvalue)
  : list (string * jvalue) :=
  match d with
  | [] => [(k, v)]
  | (k', v') :: rest =>
      if String.eqb k' k then (k', v) :: rest else (k', v') :: dict_set rest k v
  end.

Definition has_key (k : string) (d : list (string * jvalue)) : bool :=
  existsb (fun kv => String.eqb (fst kv) k) d.

(** ** str.replace and the phone normalization *)

Definition may_replace (count : option nat) : bool :=
  match count with Some O => false | _ => true end.

Definition one_less (count : option nat) : option nat :=
  match count with Some n => Some (Nat.pred n) | None => None end.

(** [s.replace(old, new, count)] for a non-empty [old]: occurrences are
    found left to right and do not overlap; [count = None] replaces all of
    them.  [skip] counts the characters of the occurrence just matched that
    are still to be passed over. *)
Fixpoint replace_from (old new : string) (count : option nat) (skip : nat)
                      (s : string) : string :=
  match s with
  | EmptyString => EmptyString
  | String c rest =>
      match skip with
      | S k => replace_from old new count k rest
      | O =>
          if may_replace count && String.prefix old s
          then new ++ replace_from old new (one_less count)
                                   (Nat.pred (String.length old)) rest
          else String c (replace_from old new count 0 rest)
      end
  end.

Definition str_replace (s old new : string) (count : option nat) : string :=
  replace_from old new count 0 s.

Definition normalize_phone (phone : string) : string :=
  str_replace
    (str_replace
       (str_replace (str_replace phone "+90" EmptyString None) "0" EmptyString (Some 1))
       " " EmptyString None)
    "-" EmptyString None.

(** The normalization as the specification words it: a leading "+90" goes,
    then one leading "0", then every space and hyphen; nothing else. *)
Definition strip_prefix (p s : string) : string :=
  if String.prefix p s
  then String.substring (String.length p) (String.length s - String.length p) s
  else s.

Fixpoint remove_char (c : ascii) (s : string) : string :=
  match s with
  | EmptyString => EmptyString
  | String a rest =>
      if Ascii.eqb a c then remove_char c rest else String a (remove_char c rest)
  end.

Definition normalize_phone_spec (phone : string) : string :=
  remove_char "-" (remove_char " " (strip_prefix "0" (strip_prefix "+90" phone))).

(** What the code removes, written without [replace]. *)
Fixpoint remove_every_plus90 (s : string) : string :=
  match s with
  | String "+" (String "9" (String "0" rest)) => remove_every_plus90 rest
  | String c rest => String c (remove_every_plus90 rest)
  | EmptyString => EmptyString
  end.

Fixpoint remove_first_char (c : ascii) (s : string) : string :=
  match s with
  | EmptyString => EmptyString
  | String a rest => if Ascii.eqb a c then rest else String a (remove_first_char c rest)
  end.

(** ** The result normalizer *)

Definition MAX_DEPTH_EXCEEDED : string := "[Max Depth Exceeded]".
Definition UNSERIALIZABLE_OBJECT : string := "[Unserializable Object]".

Definition serialization_error (e : exn) : string :=
  "[Serialization Error: " ++ str_exn e ++ "]".

(** [str(key)] *)
Definition str_key (k : pykey) : outcome string :=
  match k with
  | KStr s => Returns s
  | KOther o => o
  end.

(** A list comprehension [[f(x) for x in xs]]: left to right, the first
    exception leaves it. *)
Fixpoint comprehension {A B : Type} (f : A -> outcome B) (xs : list A)
  : outcome (list B) :=
  match xs with
  | [] => Returns []
  | x :: rest =>
      match f x with
      | Raises e => Raises e
      | Returns y =>
          match comprehension f rest with
          | Raises e => Raises e
          | Returns ys => Returns (y :: ys)
          end
      end
  end.

(** One turn of the loop over [obj.items()].  In [result[str(key)] = rhs]
    the right-hand side is evaluated before [str(key)]; the handler runs
    the same kind of assignment again, outside any [try]. *)
Definition dict_step (value_of : ref -> outcome jvalue)
                     (result : list (string * jvalue)) (item : pykey * ref)
  : outcome (list (string * jvalue)) :=
  let (key, value) := item in
  let handler (e : exn) :=
    match str_key key with
    | Returns k => Returns (dict_set result k (JStr (serialization_error e)))
    | Raises e' => Raises e'
    end in
  match value_of value with
  | Raises e => handler e
  | Returns v =>
      match str_key key with
      | Returns k => Returns (dict_set result k v)
      | Raises e => handler e
      end
  end.

Fixpoint dict_loop (value_of : ref -> outcome jvalue)
                   (result : list (string * jvalue)) (items : list (pykey * ref))
  : outcome (list (string * jvalue)) :=
  match items with
  | [] => Returns result
  | item :: rest =>
      match dict_step value_of result item with
      | Raises e => Raises e
      | Returns result' => dict_loop value_of result' rest
      end
  end.

Definition as_list (o : outcome (list jvalue)) : outcome jvalue :=
  match o with Returns l => Returns (JList l) | Raises e => Raises e end.

Definition as_dict (o : outcome (list (string * jvalue))) : outcome jvalue :=
  match o with Returns d => Returns (JDict d) | Raises e => Raises e end.

(** The body of [safe_json_serialize] with [levels] levels left before
    [current_depth] passes [max_depth].  Every call in the program uses the
    default bound, eleven levels at most; the interpreter's own limit on
    nested calls, which a bound in the hundreds would run into, is not
    modelled. *)
Fixpoint serialize_levels (heap : store) (levels : nat) (obj : node)
  : outcome jvalue :=
  match levels with
  | O => Returns (JStr MAX_DEPTH_EXCEEDED)
  | S below =>
      match obj with
      | NNone => Returns JNull
      | NBool b => Returns (JBool b)
      | NInt z => Returns (JInt z)
      | NFloat f => Returns (JFloat f)
      | NStr s => Returns (JStr s)
      | NList items | NTuple items =>
          as_list (comprehension
                     (fun item => serialize_levels heap below (heap item)) items)
      | NDict items =>
          as_dict (dict_loop
                     (fun value => serialize_levels heap below (heap value)) [] items)
      | NOther (Returns s) => Returns (JStr s)
      | NOther (Raises _) => Returns (JStr UNSERIALIZABLE_OBJECT)
      end
  end.

Definition safe_json_serialize (heap : store) (obj : node)
                               (max_depth current_depth : Z) : outcome jvalue :=
  serialize_levels heap (Z.to_nat (max_depth - current_depth + 1)) obj.

(** The call with the default [max_depth=10, current_depth=0]. *)
Definition safe_json_serialize_default (heap : store) (obj : node) : outcome jvalue :=
  safe_json_serialize heap obj 10 0.

(** ** The backend RPC client *)

Definition handle := nat.

(** The calls the program issues on [python_freeipa]: the constructor of
    [ClientMeta] and the methods of a client object. *)
Module Client.
Inductive call : Type :=
| ClientMeta (server : string) (verify_ssl : bool)
| login (h : handle) (username password : string)
| logout (h : handle)
| ping (h : handle)
| change_password (h : handle) (username new_password old_password : string)
| user_show (h : handle) (a_uid : string)
| user_find (h : handle) (sizelimit : Z)
| user_add (h : handle) (a_uid a_givenname a_sn o_mail o_userpassword : string)
| user_mod (h : handle) (a_uid : string) (params : list (string * node))
| group_find (h : handle) (a_cn o_description : option string) (sizelimit : Z)
| group_show (h : handle) (a_cn : string)
| group_add (h : handle) (a_cn o_description : string)
| group_add_member (h : handle) (a_cn o_user : string)
| group_remove_member (h : handle) (a_cn o_user : string).
End Client.

(** Session calls build, open, probe or close a session; every other call
    is a directory call. *)
Definition is_session_call (c : Client.call) : bool :=
  match c with
  | Client.ClientMeta _ _ | Client.login _ _ _ | Client.logout _ | Client.ping _ => true
  | _ => false
  end.

Definition is_directory_call (c : Client.call) : bool := negb (is_session_call c).

Definition is_constructor (c : Client.call) : bool :=
  match c with Client.ClientMeta _ _ => true | _ => false end.

Definition is_login (c : Client.call) : bool :=
  match c with Client.login _ _ _ => true | _ => false end.

(** Process configuration, the object store the backend's answers live in,
    the backend itself (its answer to a call may depend on every call made
    before, most recent first) and the source of [secrets.choice]. *)
Record environment : Type := {
  FREEIPA_SERVER : string;
  FREEIPA_USERNAME : string;
  FREEIPA_PASSWORD : string;
  FREEIPA_VERIFY_SSL : bool;
  heap : store;
  backend : list Client.call -> Client.call -> outcome node;
  entropy : nat -> nat
}.

(** ** Global state and the monad of the handlers *)

Record world : Type := mkWorld {
  freeipa_client : option handle;
  freeipa_connected : bool;
  calls : list Client.call;     (* backend calls issued so far, most recent first *)
  draws : nat                   (* random characters drawn so far *)
}.

Definition initial_world : world :=
  {| freeipa_client := None; freeipa_connected := false; calls := []; draws := 0 |}.

Definition M (A : Type) : Type := world -> outcome A * world.

Definition ret {A} (a : A) : M A := fun w => (Returns a, w).

Definition raise {A} (e : exn) : M A := fun w => (Raises e, w).

Definition bind {A B} (m : M A) (k : A -> M B) : M B :=
  fun w =>
    match m w with
    | (Returns a, w') => k a w'
    | (Raises e, w') => (Raises e, w')
    end.

(** [try: m  except Exception as e: handler e]; what [m] did to the globals
    before it raised stays done. *)
Definition try_except {A} (m : M A) (handler : exn -> M A) : M A :=
  fun w =>
    match m w with
    | (Returns a, w') => (Returns a, w')
    | (Raises e, w') => handler e w'
    end.

Definition lift {A} (o : outcome A) : M A := fun w => (o, w).

Declare Scope py_scope.
Delimit Scope py_scope with py.
Notation "x <- m ;; k" := (bind m (fun x => k))
  (at level 61, m at next level, right associativity) : py_scope.
Notation "m ;; k" := (bind m (fun _ => k))
  (at level 61, right associativity) : py_scope.
Open Scope py_scope.

Definition get_client : M (option handle) := fun w => (Returns (freeipa_client w), w).
Definition get_connected : M bool := fun w => (Returns (freeipa_connected w), w).

Definition set_client (c : option handle) : M unit :=
  fun w => (Returns tt,
            {| freeipa_client := c; freeipa_connected := freeipa_connected w;
               calls := calls w; draws := draws w |}).

Definition set_connected (b : bool) : M unit :=
  fun w => (Returns tt,
            {| freeipa_client := freeipa_client w; freeipa_connected := b;
               calls := calls w; draws := draws w |}).

Definition record_call (c : Client.call) (w : world) : world :=
  {| freeipa_client := freeipa_client w; freeipa_connected := freeipa_connected w;
     calls := c :: calls w; draws := draws w |}.

(** Issue a call on the backend. *)
Definition invoke (E : environment) (c : Client.call) : M node :=
  fun w => (backend E (calls w) c, record_call c w).

(** [ClientMeta(server, verify_ssl=verify_ssl)]: the new object is named by
    the number of calls made before its construction. *)
Definition new_ClientMeta (E : environment) (server : string) (verify_ssl : bool)
  : M handle :=
  fun w =>
    match backend E (calls w) (Client.ClientMeta server verify_ssl) with
    | Returns _ => (Returns (List.length (calls w)),
                    record_call (Client.ClientMeta server verify_ssl) w)
    | Raises e => (Raises e, record_call (Client.ClientMeta server verify_ssl) w)
    end.

(** [freeipa_client.method(...)] on the global: [None] has no methods. *)
Definition on_client (E : environment) (method : handle -> Client.call) : M node :=
  client <- get_client ;;
  match client with
  | Some h => invoke E (method h)
  | None => raise (Exception "'NoneType' object has no attribute")
  end.

(** [freeipa_client.user_mod(a_uid=uid, **params)]: the attribute is looked
    up on the global first; binding the arguments fails, before anything is
    sent, when [params] itself has a keyword [a_uid]. *)
Definition has_keyword (k : string) (params : list (string * node)) : bool :=
  existsb (fun kv => String.eqb (fst kv) k) params.

Definition user_mod_with_keywords (E : environment) (uid : string)
                                  (params : list (string * node)) : M node :=
  client <- get_client ;;
  match client with
  | Some h =>
      if has_keyword "a_uid" params
      then raise (Exception "got multiple values for keyword argument 'a_uid'")
      else invoke E (Client.user_mod h uid params)
  | None => raise (Exception "'NoneType' object has no attribute")
  end.

(** ** Session manager *)

Definition connect_freeipa (E : environment) : M bool :=
  try_except
    (h <- new_ClientMeta E (FREEIPA_SERVER E) (FREEIPA_VERIFY_SSL E) ;;
     set_client (Some h) ;;
     _ <- on_client E (fun h => Client.login h (FREEIPA_USERNAME E) (FREEIPA_PASSWORD E)) ;;
     set_connected true ;;
     ret true)
    (fun e =>
       set_connected false ;;
       ret false).

Definition is_none {A} (o : option A) : bool :=
  match o with None => true | Some _ => false end.

Definition ensure_connection (E : environment) : M bool :=
  connected <- get_connected ;;
  client <- get_client ;;
  if negb connected || is_none client then connect_freeipa E
  else
    try_except
      (_ <- on_client E Client.ping ;;
       ret true)
      (fun e => connect_freeipa E).

(** ** Helpers of the handlers *)

Definition error (text : string) : jvalue := JDict [("error", JStr text)].
Definition result (v : jvalue) : jvalue := JDict [("result", v)].

Definition NOT_CONNECTED : string := "FreeIPA sunucusuna bağlı değil".
Definition PHONE_NOT_VERIFIED : string :=
  "Telefon numarası doğrulanamadı veya sistemde kayıtlı değil.".
Definition CONNECT_FAILED : string := "FreeIPA bağlantısı başarısız: ".
Definition CONNECT_SUCCEEDED : string := "FreeIPA sunucusuna başarıyla bağlandı: ".
Definition DISCONNECTED : string := "FreeIPA bağlantısı kapatıldı".
Definition DISCONNECT_FAILED : string := "FreeIPA bağlantısı kapatılırken hata: ".
Definition STATUS_FAILED : string := "FreeIPA bağlantısı kontrol edilirken hata: ".
Definition RESET_FAILED : string := "Kullanıcı şifresi resetlenirken hata: ".

(** [d.get(key, default)] with a [str] key.  A dictionary has no two equal
    keys, so the first entry found is the entry. *)
Fixpoint dict_lookup (items : list (pykey * ref)) (key : string) : option ref :=
  match items with
  | [] => None
  | (KStr s, r) :: rest => if String.eqb s key then Some r else dict_lookup rest key
  | (KOther _, _) :: rest => dict_lookup rest key
  end.

Definition py_get (heap : store) (obj : node) (key : string) (default : node)
  : outcome node :=
  match obj with
  | NDict items =>
      match dict_lookup items key with
      | Some r => Returns (heap r)
      | None => Returns default
      end
  | _ => Raises (Exception "object has no attribute 'get'")
  end.

(** [bool(obj)] *)
Definition truthy (obj : node) : bool :=
  match obj with
  | NNone => false
  | NBool b => b
  | NInt z => negb (Z.eqb z 0)
  | NFloat (S754_zero _) => false
  | NFloat _ => true
  | NStr s => negb (String.eqb s EmptyString)
  | NList items | NTuple items => negb (Nat.eqb (List.length items) 0)
  | NDict items => negb (Nat.eqb (List.length items) 0)
  | NOther _ => true
  end.

Definition key_object (k : pykey) : node :=
  match k with
  | KStr s => NStr s
  | KOther o => NOther o
  end.

(** Strings are held as their UTF-8 bytes.  A character is a lead byte
    together with the continuation bytes (10xxxxxx) that follow it. *)
Definition is_continuation (c : ascii) : bool :=
  Nat.leb 128 (nat_of_ascii c) && Nat.ltb (nat_of_ascii c) 192.

Definition starts_with_continuation (s : string) : bool :=
  match s with
  | EmptyString => false
  | String c _ => is_continuation c
  end.

Fixpoint code_points (s : string) : list string :=
  match s with
  | EmptyString => []
  | String c rest =>
      match code_points rest with
      | t :: more =>
          if starts_with_continuation t
          then String c t :: more
          else String c EmptyString :: t :: more
      | [] => [String c EmptyString]
      end
  end.

(** The objects [for p in obj] goes through.  A [str] is gone through
    character by character. *)
Definition iterate (heap : store) (obj : node) : outcome (list node) :=
  match obj with
  | NList items | NTuple items => Returns (map heap items)
  | NDict items => Returns (map (fun kv => key_object (fst kv)) items)
  | NStr s => Returns (map NStr (code_points s))
  | _ => Raises (Exception "object is not iterable")
  end.

(** [normalize_phone(p)] on an object: only a [str] has [replace]. *)
Definition normalize_phone_of (p : node) : outcome string :=
  match p with
  | NStr s => Returns (normalize_phone s)
  | _ => Raises (Exception "object has no attribute 'replace'")
  end.

Definition ALPHABET : string :=
  "abcdefghijklmnopqrstuvwxyzABCDEFGHIJKLMNOPQRSTUVWXYZ0123456789".

Definition secrets_choice (E : environment) (alphabet : string) : M ascii :=
  fun w =>
    (Returns (match String.get (entropy E (draws w) mod String.length alphabet) alphabet with
              | Some c => c
              | None => "a"%char
              end),
     {| freeipa_client := freeipa_client w; freeipa_connected := freeipa_connected w;
        calls := calls w; draws := S (draws w) |}).

Fixpoint generate_password (E : environment) (length : nat) : M string :=
  match length with
  | O => ret EmptyString
  | S n =>
      c <- secrets_choice E ALPHABET ;;
      rest <- generate_password E n ;;
      ret (String c rest)
  end.

Definition nonempty (s : string) : bool := negb (String.eqb s EmptyString).

Definition is_not_None (v : node) : bool :=
  match v with NNone => false | _ => true end.

(** The common tail of the directory handlers:
    [return {"result": safe_json_serialize(res.get("result", default))}]. *)
Definition return_result (E : environment) (res default : node) : M jvalue :=
  payload <- lift (py_get (heap E) res "result" default) ;;
  v <- lift (safe_json_serialize_default (heap E) payload) ;;
  ret (result v).

(** ** Tool implementations *)

Definition freeipa_connect (E : environment) (server username password : string)
                           (verify_ssl : bool) : M jvalue :=
  try_except
    (h <- new_ClientMeta E server verify_ssl ;;
     set_client (Some h) ;;
     _ <- on_client E (fun h => Client.login h username password) ;;
     set_connected true ;;
     ret (result (JStr (CONNECT_SUCCEEDED ++ server))))
    (fun e =>
       set_connected false ;;
       ret (error (CONNECT_FAILED ++ str_exn e))).

Definition freeipa_disconnect (E : environment) : M jvalue :=
  try_except
    (client <- get_client ;;
     _ <- match client with
          | Some h => invoke E (Client.logout h)
          | None => ret NNone
          end ;;
     set_client None ;;
     set_connected false ;;
     ret (result (JStr DISCONNECTED)))
    (fun e => ret (error (DISCONNECT_FAILED ++ str_exn e))).

Definition freeipa_status (E : environment) : M jvalue :=
  connected <- get_connected ;;
  if negb connected then ret (error NOT_CONNECTED)
  else
    try_except
      (client <- get_client ;;
       match client with
       | Some h =>
           res <- invoke E (Client.ping h) ;;
           v <- lift (safe_json_serialize_default (heap E) res) ;;
           ret (result v)
       | None => ret JNull     (* no [return] is reached: the call gives [None] *)
       end)
      (fun e =>
         set_connected false ;;
         ret (error (STATUS_FAILED ++ str_exn e))).

Definition change_password (E : environment) (username new_password old_password : string)
  : M jvalue :=
  ok <- ensure_connection E ;;
  if negb ok then ret (error NOT_CONNECTED)
  else
    try_except
      (res <- on_client E (fun h => Client.change_password h username new_password old_password) ;;
       return_result E res (NDict []))
      (fun e => ret (error ("Kullanıcı detayları alınırken hata: " ++ str_exn e))).

Definition forgot_reset_password (E : environment) (username phone new_password : string)
  : M jvalue :=
  ok <- ensure_connection E ;;
  if negb ok then ret (error NOT_CONNECTED)
  else
    try_except
      (user_info <- on_client E (fun h => Client.user_show h username) ;;
       info <- lift (py_get (heap E) user_info "result" (NDict [])) ;;
       ipa_phones <- lift (py_get (heap E) info "telephonenumber" (NList [])) ;;
       stored <- lift (iterate (heap E) ipa_phones) ;;
       user_phones <- lift (comprehension normalize_phone_of stored) ;;
       let input_phone := normalize_phone phone in
       if negb (truthy ipa_phones) || negb (existsb (String.eqb input_phone) user_phones)
       then ret (error PHONE_NOT_VERIFIED)
       else
         temp_password <- generate_password E 12 ;;
         _ <- on_client E (fun h => Client.user_mod h username
                                      [("o_userpassword", NStr temp_password)]) ;;
         if nonempty new_password
         then
           _ <- on_client E (fun h => Client.change_password h username
                                        new_password temp_password) ;;
           ret (JDict [("result", JStr "Şifre başarıyla sıfırlandı ve yeni şifre ayarlandı.");
                       ("username", JStr username);
                       ("new_password", JStr new_password)])
         else
           ret (JDict [("result", JStr "Şifre başarıyla sıfırlandı. Yeni şifre kullanıcıya iletildi.");
                       ("username", JStr username);
                       ("new_password", JStr temp_password)]))
      (fun e => ret (error (RESET_FAILED ++ str_exn e))).

Definition user_list (E : environment) (sizelimit : Z) : M jvalue :=
  ok <- ensure_connection E ;;
  if negb ok then ret (error NOT_CONNECTED)
  else
    try_except
      (res <- on_client E (fun h => Client.user_find h sizelimit) ;;
       return_result E res (NList []))
      (fun e => ret (error ("Kullanıcı listesi alınırken hata: " ++ str_exn e))).

Definition user_show (E : environment) (uid : string) : M jvalue :=
  ok <- ensure_connection E ;;
  if negb ok then ret (error NOT_CONNECTED)
  else
    try_except
      (res <- on_client E (fun h => Client.user_show h uid) ;;
       return_result E res (NDict []))
      (fun e => ret (error ("Kullanıcı detayları alınırken hata: " ++ str_exn e))).

Definition user_add (E : environment) (uid givenname sn mail userpassword : string)
  : M jvalue :=
  ok <- ensure_connection E ;;
  if negb ok then ret (error NOT_CONNECTED)
  else
    try_except
      (res <- on_client E (fun h => Client.user_add h uid givenname sn mail userpassword) ;;
       return_result E res (NDict []))
      (fun e => ret (error ("Kullanıcı eklenirken hata: " ++ str_exn e))).

Definition user_modify (E : environment) (uid : string) (kwargs : list (string * node))
  : M jvalue :=
  ok <- ensure_connection E ;;
  if negb ok then ret (error NOT_CONNECTED)
  else
    try_except
      (let params := filter (fun kv => is_not_None (snd kv)) kwargs in
       res <- user_mod_with_keywords E uid params ;;
       return_result E res (NDict []))
      (fun e => ret (error ("Kullanıcı güncellenirken hata: " ++ str_exn e))).

Definition group_list (E : environment) (sizelimit : Z) (cn description : string)
  : M jvalue :=
  ok <- ensure_connection E ;;
  if negb ok then ret (error NOT_CONNECTED)
  else
    try_except
      (res <- (if nonempty cn && nonempty description
               then on_client E (fun h => Client.group_find h (Some cn) (Some description) sizelimit)
               else if nonempty cn
               then on_client E (fun h => Client.group_find h (Some cn) None sizelimit)
               else if nonempty description
               then on_client E (fun h => Client.group_find h None (Some description) sizelimit)
               else on_client E (fun h => Client.group_find h None None sizelimit)) ;;
       return_result E res (NList []))
      (fun e => ret (error ("Grup listesi alınırken hata: " ++ str_exn e))).

Definition group_show (E : environment) (cn : string) : M jvalue :=
  ok <- ensure_connection E ;;
  if negb ok then ret (error NOT_CONNECTED)
  else
    try_except
      (res <- on_client E (fun h => Client.group_show h cn) ;;
       return_result E res (NDict []))
      (fun e => ret (error ("Grup detayları alınırken hata: " ++ str_exn e))).

Definition group_add (E : environment) (cn description : string) : M jvalue :=
  ok <- ensure_connection E ;;
  if negb ok then ret (error NOT_CONNECTED)
  else
    try_except
      (res <- on_client E (fun h => Client.group_add h cn description) ;;
       return_result E res (NDict []))
      (fun e => ret (error ("Grup eklenirken hata: " ++ str_exn e))).

Definition group_add_member (E : environment) (cn user : string) : M jvalue :=
  ok <- ensure_connection E ;;
  if negb ok then ret (error NOT_CONNECTED)
  else
    try_except
      (res <- on_client E (fun h => Client.group_add_member h cn user) ;;
       return_result E res (NDict []))
      (fun e => ret (error ("Gruba üye eklenirken hata: " ++ str_exn e))).

Definition group_remove_member (E : environment) (cn user : string) : M jvalue :=
  ok <- ensure_connection E ;;
  if negb ok then ret (error NOT_CONNECTED)
  else
    try_except
      (res <- on_client E (fun h => Client.group_remove_member h cn user) ;;
       return_result E res (NDict []))
      (fun e => ret (error ("Gruptan üye çıkarılırken hata: " ++ str_exn e))).

(** ** The action surface *)

Inductive action : Type :=
| Freeipa_connect (server username password : string) (verify_ssl : bool)
| Freeipa_disconnect
| Freeipa_status
| Change_password (username new_password old_password : string)
| Forgot_reset_password (username phone new_password : string)
| User_list (sizelimit : Z)
| User_show (uid : string)
| User_add (uid givenname sn mail userpassword : string)
| User_modify (uid : string) (kwargs : list (string * node))
| Group_list (sizelimit : Z) (cn description : string)
| Group_show (cn : string)
| Group_add (cn description : string)
| Group_add_member (cn user : string)
| Group_remove_member (cn user : string).

Definition run_action (E : environment) (a : action) : M jvalue :=
  match a with
  | Freeipa_connect server username password verify_ssl =>
      freeipa_connect E server username password verify_ssl
  | Freeipa_disconnect => freeipa_disconnect E
  | Freeipa_status => freeipa_status E
  | Change_password username new_password old_password =>
      change_password E username new_password old_password
  | Forgot_reset_password username phone new_password =>
      forgot_reset_password E username phone new_password
  | User_list sizelimit => user_list E sizelimit
  | User_show uid => user_show E uid
  | User_add uid givenname sn mail userpassword =>
      user_add E uid givenname sn mail userpassword
  | User_modify uid kwargs => user_modify E uid kwargs
  | Group_list sizelimit cn description => group_list E sizelimit cn description
  | Group_show cn => group_show E cn
  | Group_add cn description => group_add E cn description
  | Group_add_member cn user => group_add_member E cn user
  | Group_remove_member cn user => group_remove_member E cn user
  end.

(** The handlers behind the gate: all but connect, disconnect and status. *)
Definition is_directory_handler (a : action) : bool :=
  match a with
  | Freeipa_connect _ _ _ _ | Freeipa_disconnect | Freeipa_status => false
  | _ => true
  end.

(** Everything that touches the session: a tool call, the gate on its own,
    and the connect of [startup_event]. *)
Inductive operation : Type :=
| Tool (a : action)
| Ensure_connection
| Startup_event.

Definition step (E : environment) (op : operation) (w : world) : world :=
  match op with
  | Tool a => snd (run_action E a w)
  | Ensure_connection => snd (ensure_connection E w)
  | Startup_event => snd (connect_freeipa E w)
  end.

Definition run (E : environment) (ops : list operation) (w : world) : world :=
  fold_left (fun w op => step E op w) ops w.

(** ** Predicates of the specification *)

(** The connected flag is only up when there is a handle. *)
Definition session_invariant (w : world) : Prop :=
  freeipa_connected w = true -> freeipa_client w <> None.

(** An action outcome: a mapping with a result field or with an error
    field, and not with both. *)
Definition is_action_outcome (v : jvalue) : bool :=
  match v with
  | JDict items => xorb (has_key "result" items) (has_key "error" items)
  | _ => false
  end.

Definition is_failure (v : jvalue) : bool :=
  match v with
  | JDict items => has_key "error" items
  | _ => false
  end.

Definition directory_calls (cs : list Client.call) : list Client.call :=
  filter is_directory_call cs.

Definition reconnect_attempts (cs : list Client.call) : nat :=
  List.length (filter is_constructor cs).

(** The account that [user_info] describes has the phone numbers [phones]:
    [user_info["result"]["telephonenumber"]] is a list of these strings, or
    is absent and [phones] is empty. *)
Definition stored_phones (E : environment) (user_info : node) (phones : list string)
  : Prop :=
  exists info items,
    py_get (heap E) user_info "result" (NDict []) = Returns info /\
    py_get (heap E) info "telephonenumber" (NList []) = Returns (NList items) /\
    map (heap E) items = map NStr phones.

(** [str(key)] returns for every key of every dictionary that is reached
    from [obj] through lists and tuples only, within [levels] levels.  (An
    exception below a dictionary value is caught by the loop over that
    dictionary.) *)
Fixpoint keys_printable (heap : store) (levels : nat) (obj : node) : Prop :=
  match levels with
  | O => True
  | S below =>
      match obj with
      | NList items | NTuple items =>
          Forall (fun item => keys_printable heap below (heap item)) items
      | NDict items =>
          Forall (fun kv => exists k, str_key (fst kv) = Returns k) items
      | _ => True
      end
  end.

(** The session after [freeipa_client = None; freeipa_connected = False]. *)
Definition cleared (w : world) : world :=
  {| freeipa_client := None; freeipa_connected := false;
     calls := calls w; draws := draws w |}.

(** The shape every directory handler has: the gate, then the body in a
    [try] with its handler. *)
Definition gated (E : environment) (body : M jvalue) (on_error : exn -> M jvalue)
  : M jvalue :=
  ok <- ensure_connection E ;;
  if negb ok then ret (error NOT_CONNECTED)
  else try_except body on_error.

(** A computation that leaves both globals as it found them. *)
Definition frames {A} (m : M A) : Prop :=
  forall w, freeipa_client (snd (m w)) = freeipa_client w /\
            freeipa_connected (snd (m w)) = freeipa_connected w.

(** A computation that, when it returns, returns a value in [P]. *)
Definition returns_only {A} (P : A -> Prop) (m : M A) : Prop :=
  forall w a w', m w = (Returns a, w') -> P a.

(** ** Sample environments *)

(** Objects 0 to 3 make up an account record with one phone number, object
    4 is a list that contains itself, object 5 a dictionary with a key
    whose [__str__] raises. *)
Definition sample_store : store :=
  fun r =>
    match r with
    | 0 => NDict [(KStr "result", 1)]
    | 1 => NDict [(KStr "uid", 6); (KStr "telephonenumber", 2)]
    | 2 => NList [3]
    | 3 => NStr "0555 123-4567"
    | 4 => NList [4]
    | 5 => NDict [(KOther (Raises (Exception "boom")), 7)]
    | 6 => NStr "alice"
    | 7 => NInt 1
    | _ => NNone
    end.

Definition answers_all : list Client.call -> Client.call -> outcome node :=
  fun _ _ => Returns (sample_store 0).

Definition refuses_all : list Client.call -> Client.call -> outcome node :=
  fun _ _ => Raises (Exception "connection refused").

Definition drops_ping : list Client.call -> Client.call -> outcome node :=
  fun _ c =>
    match c with
    | Client.ping _ => Raises (Exception "session expired")
    | _ => Returns (sample_store 0)
    end.

Definition rejects_login : list Client.call -> Client.call -> outcome node :=
  fun _ c =>
    match c with
    | Client.login _ _ _ => Raises (Exception "invalid credentials")
    | _ => Returns (sample_store 0)
    end.

Definition fails_logout : list Client.call -> Client.call -> outcome node :=
  fun _ c =>
    match c with
    | Client.logout _ => Raises (Exception "logout failed")
    | _ => Returns (sample_store 0)
    end.

Definition sample_env (b : list Client.call -> Client.call -> outcome node)
  : environment :=
  {| FREEIPA_SERVER := "ipa.example.test";
     FREEIPA_USERNAME := "admin";
     FREEIPA_PASSWORD := "secret";
     FREEIPA_VERIFY_SSL := false;
     heap := sample_store;
     backend := b;
     entropy := fun n => n |}.

(** A session that is up on handle 0. *)
Definition connected_world : world :=
  {| freeipa_client := Some 0; freeipa_connected := true;
     calls := [Client.login 0 "admin" "secret"; Client.ClientMeta "ipa.example.test" false];
     draws := 0 |}.

(** The flag up without a handle: a state no operation leads to. *)
Definition flag_without_handle : world :=
  {| freeipa_client := None; freeipa_connected := true; calls := []; draws := 0 |}.

(** ** Further notions *)

(** How deep the containers of a value nest. *)
Fixpoint jdepth (v : jvalue) : nat :=
  match v with
  | JList items => S (fold_right Nat.max 0 (map jdepth items))
  | JDict items => S (fold_right Nat.max 0 (map (fun kv => jdepth (snd kv)) items))
  | _ => 0
  end.

(** [d.get(k)] on a built dictionary. *)
Fixpoint dict_find (d : list (string * jvalue)) (k : string) : option jvalue :=
  match d with
  | [] => None
  | (k', v) :: rest => if String.eqb k' k then Some v else dict_find rest k
  end.

(** What the loop writes for an item: the normalized value, or the
    placeholder that carries the exception raised below it. *)
Definition written (value_of : ref -> outcome jvalue) (item : pykey * ref) : jvalue :=
  match value_of (snd item) with
  | Returns v => v
  | Raises e => JStr (serialization_error e)
  end.

(** The last thing written under the key string [k], going through the
    items in order. *)
Fixpoint last_write (value_of : ref -> outcome jvalue) (items : list (pykey * ref))
                    (k : string) : option jvalue :=
  match items with
  | [] => None
  | item :: rest =>
      match last_write value_of rest k with
      | Some v => Some v
      | None =>
          match str_key (fst item) with
          | Returns k' => if String.eqb k' k then Some (written value_of item) else None
          | Raises _ => None
          end
      end
  end.

(** Every dictionary of the store has [str] keys only, as in a decoded
    JSON payload. *)
Definition string_keyed (obj : node) : Prop :=
  match obj with
  | NDict items => Forall (fun kv => exists s, fst kv = KStr s) items
  | _ => True
  end.

(** The character [c] does not occur in [s]. *)
Definition free_of (c : ascii) (s : string) : Prop :=
  ~ In c (list_ascii_of_string s).

(** The session after [freeipa_connected = False] alone. *)
Definition lowered (w : world) : world :=
  {| freeipa_client := freeipa_client w; freeipa_connected := false;
     calls := calls w; draws := draws w |}.

(** A filter argument of [group_list]: an empty string is no filter. *)
Definition optional (s : string) : option string :=
  if nonempty s then Some s else None.

(** The first backend call a directory handler issues on the handle [h],
    with the handler's parameters under the backend's field names.
    [user_modify] issues none when a keyword argument is itself named
    [a_uid]. *)
Definition directory_call (a : action) (h : handle) : option Client.call :=
  match a with
  | Change_password username new_password old_password =>
      Some (Client.change_password h username new_password old_password)
  | Forgot_reset_password username _ _ => Some (Client.user_show h username)
  | User_list sizelimit => Some (Client.user_find h sizelimit)
  | User_show uid => Some (Client.user_show h uid)
  | User_add uid givenname sn mail userpassword =>
      Some (Client.user_add h uid givenname sn mail userpassword)
  | User_modify uid kwargs =>
      let params := filter (fun kv => is_not_None (snd kv)) kwargs in
      if has_keyword "a_uid" params then None
      else Some (Client.user_mod h uid params)
  | Group_list sizelimit cn description =>
      Some (Client.group_find h (optional cn) (optional description) sizelimit)
  | Group_show cn => Some (Client.group_show h cn)
  | Group_add cn description => Some (Client.group_add h cn description)
  | Group_add_member cn user => Some (Client.group_add_member h cn user)
  | Group_remove_member cn user => Some (Client.group_remove_member h cn user)
  | Freeipa_connect _ _ _ _ | Freeipa_disconnect | Freeipa_status => None
  end.

(** The text a directory handler puts before the exception's message. *)
Definition error_text (a : action) : string :=
  match a with
  | Change_password _ _ _ => "Kullanıcı detayları alınırken hata: "
  | Forgot_reset_password _ _ _ => RESET_FAILED
  | User_list _ => "Kullanıcı listesi alınırken hata: "
  | User_show _ => "Kullanıcı detayları alınırken hata: "
  | User_add _ _ _ _ _ => "Kullanıcı eklenirken hata: "
  | User_modify _ _ => "Kullanıcı güncellenirken hata: "
  | Group_list _ _ _ => "Grup listesi alınırken hata: "
  | Group_show _ => "Grup detayları alınırken hata: "
  | Group_add _ _ => "Grup eklenirken hata: "
  | Group_add_member _ _ => "Gruba üye eklenirken hata: "
  | Group_remove_member _ _ => "Gruptan üye çıkarılırken hata: "
  | Freeipa_connect _ _ _ _ => CONNECT_FAILED
  | Freeipa_disconnect => DISCONNECT_FAILED
  | Freeipa_status => STATUS_FAILED
  end.

(** The handlers that are one backend call followed by the common tail. *)
Definition is_simple_handler (a : action) : bool :=
  match a with
  | Forgot_reset_password _ _ _ => false
  | _ => is_directory_handler a
  end.

(** The default of [res.get("result", default)]: a list for the two
    listings, a dictionary for the rest. *)
Definition default_payload (a : action) : node :=
  match a with
  | User_list _ | Group_list _ _ _ => NList []
  | _ => NDict []
  end.

Definition empty_payload (a : action) : jvalue :=
  match a with
  | User_list _ | Group_list _ _ _ => JList []
  | _ => JDict []
  end.

(** The [k]-th character [secrets.choice(alphabet)] draws, and the
    password of [n] characters drawn from the [k]-th on. *)
Definition drawn (E : environment) (k : nat) : ascii :=
  match String.get (entropy E k mod String.length ALPHABET) ALPHABET with
  | Some c => c
  | None => "a"%char
  end.

Fixpoint password_from (E : environment) (n k : nat) : string :=
  match n with
  | O => EmptyString
  | S n' => String (drawn E k) (password_from E n' (S k))
  end.

Definition drew (n : nat) (w : world) : world :=
  {| freeipa_client := freeipa_client w; freeipa_connected := freeipa_connected w;
     calls := calls w; draws := draws w + n |}.

(** Two more backends: one that denies group searches, one whose answers
    carry no [result] field. *)
Definition denies_group_find : list Client.call -> Client.call -> outcome node :=
  fun _ c =>
    match c with
    | Client.group_find _ _ _ _ => Raises (Exception "permission denied")
    | _ => Returns (sample_store 0)
    end.

Definition answers_without_result : list Client.call -> Client.call -> outcome node :=
  fun _ _ => Returns (NDict [(KStr "count", 7)]).

(** A backend that accepts the modify call of a reset and refuses the
    change-password call that follows. *)
Definition refuses_change_password : list Client.call -> Client.call -> outcome node :=
  fun _ c =>
    match c with
    | Client.change_password _ _ _ _ => Raises (Exception "password policy")
    | _ => Returns (sample_store 0)
    end.

(** The client object a call is made on; the constructor is made on none. *)
Definition handle_of (c : Client.call) : option handle :=
  match c with
  | Client.ClientMeta _ _ => None
  | Client.login h _ _ | Client.logout h | Client.ping h
  | Client.change_password h _ _ _
  | Client.user_show h _ | Client.user_find h _ | Client.user_add h _ _ _ _ _
  | Client.user_mod h _ _ | Client.group_find h _ _ _ | Client.group_show h _
  | Client.group_add h _ _ | Client.group_add_member h _ _
  | Client.group_remove_member h _ _ => Some h
  end.

(** In the history [cs] (most recent first) a login on [h] was issued and
    returned. *)
Fixpoint logged_in (E : environment) (cs : list Client.call) (h : handle) : Prop :=
  match cs with
  | [] => False
  | c :: earlier =>
      (exists username password r,
          c = Client.login h username password /\ backend E earlier c = Returns r)
      \/ logged_in E earlier h
  end.

(** Every directory call of the history was made on a handle on which a
    login had returned before. *)
Fixpoint directory_calls_authenticated (E : environment) (cs : list Client.call) : Prop :=
  match cs with
  | [] => True
  | c :: earlier =>
      (is_directory_call c = true ->
       exists h, handle_of c = Some h /\ logged_in E earlier h)
      /\ directory_calls_authenticated E earlier
  end.

(** What holds of a state between operations: the history is
    authenticated, and a raised flag comes with a logged-in handle. *)
Definition authenticated_session (E : environment) (w : world) : Prop :=
  directory_calls_authenticated E (calls w) /\
  (freeipa_connected w = true ->
   exists h, freeipa_client w = Some h /\ logged_in E (calls w) h).

(** A computation that, started on a logged-in handle, stays on it and
    keeps the history authenticated. *)
Definition stays_authenticated {A} (E : environment) (m : M A) : Prop :=
  forall w h,
    freeipa_client w = Some h ->
    logged_in E (calls w) h ->
    directory_calls_authenticated E (calls w) ->
    freeipa_client (snd (m w)) = Some h /\
    freeipa_connected (snd (m w)) = freeipa_connected w /\
    logged_in E (calls (snd (m w))) h /\
    directory_calls_authenticated E (calls (snd (m w))).

(** * Properties *)

(** ** Result normalizer *)

Lemma levels_exceeded (max_depth current_depth : Z) :
  (current_depth > max_depth)%Z -> Z.to_nat (max_depth - current_depth + 1) = 0.
Proof. intros H. lia. Qed.

Lemma levels_left (max_depth current_depth : Z) :
  (current_depth <= max_depth)%Z ->
  Z.to_nat (max_depth - current_depth + 1) =
  S (Z.to_nat (max_depth - (current_depth + 1) + 1)).
Proof. intros H. lia. Qed.

(** The definition by levels reads as the source does: the depth test
    first, then the case on the type, with [current_depth + 1] below. *)
Lemma safe_json_serialize_eq (heap : store) (obj : node) (max_depth current_depth : Z) :
  safe_json_serialize heap obj max_depth current_depth =
  if (current_depth >? max_depth)%Z then Returns (JStr "[Max Depth Exceeded]")
  else
    match obj with
    | NNone => Returns JNull
    | NBool b => Returns (JBool b)
    | NInt z => Returns (JInt z)
    | NFloat f => Returns (JFloat f)
    | NStr s => Returns (JStr s)
    | NList items | NTuple items =>
        as_list (comprehension
                   (fun item => safe_json_serialize heap (heap item) max_depth
                                                    (current_depth + 1)) items)
    | NDict items =>
        as_dict (dict_loop
                   (fun value => safe_json_serialize heap (heap value) max_depth
                                                     (current_depth + 1)) [] items)
    | NOther (Returns s) => Returns (JStr s)
    | NOther (Raises _) => Returns (JStr "[Unserializable Object]")
    end.
Proof.
  unfold safe_json_serialize.
  destruct (Z.gtb_spec current_depth max_depth) as [Hgt | Hle].
  - rewrite levels_exceeded by lia. reflexivity.
  - rewrite levels_left by lia. reflexivity.
Qed.

Lemma comprehension_returns {A B} (f : A -> outcome B) (xs : list A) :
  Forall (fun x => exists y, f x = Returns y) xs ->
  exists ys, comprehension f xs = Returns ys.
Proof.
  induction 1 as [| x xs [y Hy] _ [ys Hys]]; simpl.
  - now exists [].
  - rewrite Hy, Hys. now exists (y :: ys).
Qed.

Lemma comprehension_returns_inv {A B} (f : A -> outcome B) (xs : list A) ys :
  comprehension f xs = Returns ys ->
  Forall (fun x => exists y, f x = Returns y) xs.
Proof.
  revert ys. induction xs as [| x xs IH]; simpl; intros ys H.
  - constructor.
  - destruct (f x) as [y |] eqn:Hy; [| discriminate].
    destruct (comprehension f xs) as [zs |] eqn:Hzs; [| discriminate].
    constructor; eauto.
Qed.

Lemma dict_step_returns value_of acc key value :
  (exists d, dict_step value_of acc (key, value) = Returns d) <->
  (exists k, str_key key = Returns k).
Proof.
  unfold dict_step.
  destruct (str_key key) as [k | e]; destruct (value_of value); split;
    intros [x Hx]; try discriminate; eauto.
Qed.

Lemma dict_loop_returns value_of items : forall acc,
  (exists d, dict_loop value_of acc items = Returns d) <->
  Forall (fun kv => exists k, str_key (fst kv) = Returns k) items.
Proof.
  induction items as [| [key value] items IH]; intros acc; cbn [dict_loop].
  - split; [constructor | eauto].
  - destruct (dict_step value_of acc (key, value)) as [acc' | e] eqn:Hstep.
    + split.
      * intros H. constructor; [| exact (proj1 (IH acc') H)].
        apply (dict_step_returns value_of acc key value). eauto.
      * intros H. apply (proj2 (IH acc')). now inversion H.
    + split.
      * intros [d Hd]. discriminate.
      * intros H. inversion H as [| ? ? Hk _]; subst.
        apply (dict_step_returns value_of acc key value) in Hk.
        destruct Hk as [d Hd]. congruence.
Qed.

(** The normalizer is total, and it returns exactly when no dictionary key
    in its way raises on [str]. *)
Lemma serialize_levels_returns (heap : store) (levels : nat) : forall obj,
  (exists v, serialize_levels heap levels obj = Returns v) <->
  keys_printable heap levels obj.
Proof.
  induction levels as [| below IH]; intros obj.
  - simpl. split; eauto.
  - assert (Hseq : forall items,
      (exists v, as_list (comprehension
                   (fun item => serialize_levels heap below (heap item)) items) = Returns v)
      <-> Forall (fun item => keys_printable heap below (heap item)) items).
    { intros items. split.
      - intros [v Hv]. unfold as_list in Hv.
        destruct (comprehension _ items) as [ys |] eqn:Hc; [| discriminate].
        apply comprehension_returns_inv in Hc.
        eapply Forall_impl; [| exact Hc]. intros r Hr. now apply IH.
      - intros H.
        destruct (comprehension_returns
                    (fun item => serialize_levels heap below (heap item)) items) as [ys Hys].
        { eapply Forall_impl; [| exact H]. intros r Hr. now apply IH. }
        unfold as_list. rewrite Hys. eauto. }
    destruct obj as [| b | z | f | s | items | items | items | [s | e]];
      simpl; try (split; eauto; fail); try apply Hseq.
    pose proof (dict_loop_returns
                  (fun value => serialize_levels heap below (heap value)) items [])
      as [Hto Hfrom].
    unfold as_dict. split.
    + intros [x Hx]. apply Hto.
      destruct (dict_loop _ [] items) as [d | e]; [eauto | discriminate].
    + intros H. destruct (Hfrom H) as [d Hd]. rewrite Hd. eauto.
Qed.

Lemma safe_json_serialize_returns (heap : store) (obj : node) (max_depth current_depth : Z) :
  keys_printable heap (Z.to_nat (max_depth - current_depth + 1)) obj ->
  exists v, safe_json_serialize heap obj max_depth current_depth = Returns v.
Proof. intros H. now apply serialize_levels_returns. Qed.

(** A list that contains itself is cut at the depth bound. *)
Example self_reference_is_cut :
  safe_json_serialize sample_store (sample_store 4) 2 0 =
  Returns (JList [JList [JList [JStr "[Max Depth Exceeded]"]]]).
Proof. reflexivity. Qed.

(** C2 (code defect).  The claim is that the normalizer never raises on any
    input.  On a dictionary with a key whose [__str__] raises, [str(key)]
    raises in the [try], and again in the [except] handler, where nothing
    catches it: the call raises the key's exception. *)
Theorem safe_json_serialize_raises_on_unprintable_key :
  safe_json_serialize_default sample_store
    (NDict [(KOther (Raises (Exception "boom")), 7)]) = Raises (Exception "boom").
Proof. reflexivity. Qed.

(** C3.  Whatever the object, at a depth above the bound the normalizer
    returns the string "[Max Depth Exceeded]". *)
Theorem max_depth_exceeded (heap : store) (obj : node) (max_depth current_depth : Z) :
  (current_depth > max_depth)%Z ->
  safe_json_serialize heap obj max_depth current_depth =
  Returns (JStr "[Max Depth Exceeded]").
Proof.
  intros Hgt. unfold safe_json_serialize.
  rewrite levels_exceeded by exact Hgt. reflexivity.
Qed.

Lemma max_depth_exceeded_witness :
  (11 > 10)%Z /\
  safe_json_serialize sample_store (sample_store 0) 10 11 =
  Returns (JStr "[Max Depth Exceeded]").
Proof.
  split; [lia | apply (max_depth_exceeded sample_store (sample_store 0) 10 11); lia].
Defined.

(** ** Phone normalization *)

Lemma prefix_char (c a : ascii) (rest : string) :
  String.prefix (String c EmptyString) (String a rest) = Ascii.eqb a c.
Proof.
  simpl. destruct (ascii_dec c a) as [-> | Hne].
  - rewrite Ascii.eqb_refl. now destruct rest.
  - symmetry. apply Ascii.eqb_neq. congruence.
Qed.

Lemma replace_exhausted (old new s : string) :
  replace_from old new (Some 0) 0 s = s.
Proof. induction s as [| a rest IH]; simpl; [reflexivity | now rewrite IH]. Qed.

Lemma replace_char_all (c : ascii) (s : string) :
  str_replace s (String c EmptyString) EmptyString None = remove_char c s.
Proof.
  unfold str_replace. induction s as [| a rest IH]; [reflexivity |].
  cbn [replace_from remove_char may_replace andb one_less String.length Nat.pred].
  rewrite prefix_char. destruct (Ascii.eqb a c); simpl; now rewrite IH.
Qed.

Lemma replace_char_first (c : ascii) (s : string) :
  str_replace s (String c EmptyString) EmptyString (Some 1) = remove_first_char c s.
Proof.
  unfold str_replace. induction s as [| a rest IH]; [reflexivity |].
  cbn [replace_from remove_first_char may_replace andb one_less String.length Nat.pred].
  rewrite prefix_char. destruct (Ascii.eqb a c); simpl.
  - apply replace_exhausted.
  - now rewrite IH.
Qed.

Ltac each_character a :=
  destruct a as [[] [] [] [] [] [] [] []]; try reflexivity.

(** [remove_every_plus90] one character at a time. *)
Lemma remove_every_plus90_step (a : ascii) (rest : string) :
  remove_every_plus90 (String a rest) =
  if String.prefix "+90" (String a rest)
  then remove_every_plus90 (String.substring 3 (String.length rest - 2) (String a rest))
  else String a (remove_every_plus90 rest).
Proof.
  each_character a.
  destruct rest as [| b rest]; [reflexivity |].
  each_character b.
  destruct rest as [| c rest]; [reflexivity |].
  each_character c.
  cbn [String.prefix]. simpl ascii_dec.
  assert (Hsub : forall t, String.substring 0 (String.length t) t = t).
  { induction t as [| x t IHt]; simpl; [reflexivity | now rewrite IHt]. }
  assert (Hpre : forall t, String.prefix EmptyString t = true) by (now destruct t).
  rewrite Hpre. simpl. rewrite Nat.sub_0_r, Hsub. reflexivity.
Qed.

Lemma replace_plus90_bounded (n : nat) : forall s,
  String.length s <= n ->
  replace_from "+90" EmptyString None 0 s = remove_every_plus90 s.
Proof.
  induction n as [| n IH]; intros s Hlen.
  - destruct s; [reflexivity | simpl in Hlen; lia].
  - destruct s as [| a rest]; [reflexivity |].
    simpl in Hlen.
    rewrite remove_every_plus90_step.
    cbn [replace_from may_replace andb one_less].
    destruct (String.prefix "+90" (String a rest)) eqn:Hp.
    + destruct rest as [| b [| c rest]].
      * each_character a.
      * each_character a; each_character b.
      * assert (Hsub : forall t, String.substring 0 (String.length t) t = t).
        { induction t as [| x t IHt]; simpl; [reflexivity | now rewrite IHt]. }
        simpl. rewrite Nat.sub_0_r, Hsub. apply IH. simpl in Hlen. lia.
    + f_equal. apply IH. lia.
Qed.

Lemma replace_plus90 (s : string) :
  str_replace s "+90" EmptyString None = remove_every_plus90 s.
Proof. apply (replace_plus90_bounded (String.length s)). lia. Qed.

(** C9 (code defect).  The claim is that only a leading "0" is stripped
    and that a "0" elsewhere stays.  [replace("0", "", 1)] removes the first
    "0" wherever it stands: "5501" has no leading "0" and loses its inner
    one, and the international form of a number loses a digit that its
    national form keeps, so that the two forms of one number no longer
    match while two different numbers do. *)
Theorem normalize_phone_removes_inner_zero :
  normalize_phone "5501" = "551" /\
  normalize_phone_spec "5501" = "5501" /\
  normalize_phone "5501" <> normalize_phone_spec "5501" /\
  normalize_phone "0505 123 45 67" = "5051234567" /\
  normalize_phone "+90 505 123 45 67" = "551234567" /\
  normalize_phone "5501234567" = normalize_phone "5510234567".
Proof. repeat split; try reflexivity. vm_compute. discriminate. Qed.

(** What the code removes, for every input: every occurrence of "+90"
    wherever it stands, then the first "0" of what is left wherever it
    stands, then every space and every hyphen. *)
Lemma normalize_phone_removes (phone : string) :
  normalize_phone phone =
  remove_char "-" (remove_char " " (remove_first_char "0" (remove_every_plus90 phone))).
Proof.
  unfold normalize_phone.
  rewrite replace_plus90.
  rewrite (replace_char_first "0").
  rewrite (replace_char_all " ").
  rewrite (replace_char_all "-").
  reflexivity.
Qed.

(** ** Session manager *)

Ltac step_monad :=
  cbv beta iota zeta delta
    [bind try_except ret raise lift get_client get_connected
     set_client set_connected invoke new_ClientMeta on_client
     user_mod_with_keywords] in *;
  cbn [fst snd freeipa_client freeipa_connected calls draws record_call] in *.

(** [connect_freeipa] never raises; it makes one constructor call with the
    configured server and TLS flag, and, when that returns, one login with
    the configured name and password on the new handle. *)
Lemma connect_freeipa_cases (E : environment) (w : world) :
  let ctor := Client.ClientMeta (FREEIPA_SERVER E) (FREEIPA_VERIFY_SSL E) in
  let h := List.length (calls w) in
  let log := Client.login h (FREEIPA_USERNAME E) (FREEIPA_PASSWORD E) in
  (exists e, backend E (calls w) ctor = Raises e /\
     connect_freeipa E w =
     (Returns false,
      {| freeipa_client := freeipa_client w; freeipa_connected := false;
         calls := ctor :: calls w; draws := draws w |}))
  \/
  (exists e, backend E (ctor :: calls w) log = Raises e /\
     connect_freeipa E w =
     (Returns false,
      {| freeipa_client := Some h; freeipa_connected := false;
         calls := log :: ctor :: calls w; draws := draws w |}))
  \/
  connect_freeipa E w =
  (Returns true,
   {| freeipa_client := Some h; freeipa_connected := true;
      calls := log :: ctor :: calls w; draws := draws w |}).
Proof.
  intros ctor h log. unfold connect_freeipa. step_monad.
  fold ctor.
  destruct (backend E (calls w) ctor) as [r | e] eqn:Hctor.
  - cbn. fold h. fold log.
    destruct (backend E (ctor :: calls w) log) as [r' | e'] eqn:Hlog; cbn.
    + right. right. reflexivity.
    + right. left. exists e'. split; reflexivity.
  - left. exists e. split; reflexivity.
Qed.

Lemma connect_freeipa_returns (E : environment) (w : world) :
  exists ok, fst (connect_freeipa E w) = Returns ok.
Proof.
  destruct (connect_freeipa_cases E w) as [[e [_ H]] | [[e [_ H]] | H]];
    rewrite H; cbn; eauto.
Qed.

Lemma connect_freeipa_invariant (E : environment) (w : world) :
  session_invariant (snd (connect_freeipa E w)).
Proof.
  unfold session_invariant.
  destruct (connect_freeipa_cases E w) as [[e [_ H]] | [[e [_ H]] | H]];
    rewrite H; cbn; congruence.
Qed.

Lemma connect_freeipa_true (E : environment) (w w' : world) :
  connect_freeipa E w = (Returns true, w') ->
  freeipa_connected w' = true /\ freeipa_client w' = Some (List.length (calls w)).
Proof.
  destruct (connect_freeipa_cases E w) as [[e [_ H]] | [[e [_ H]] | H]];
    rewrite H; intros Heq; inversion Heq; subst; cbn; auto.
Qed.

Lemma connect_freeipa_calls (E : environment) (w : world) :
  exists new, calls (snd (connect_freeipa E w)) = (new ++ calls w)%list /\
              forallb is_session_call new = true /\
              reconnect_attempts new = 1.
Proof.
  destruct (connect_freeipa_cases E w) as [[e [_ H]] | [[e [_ H]] | H]];
    rewrite H; cbn.
  - now exists [Client.ClientMeta (FREEIPA_SERVER E) (FREEIPA_VERIFY_SSL E)].
  - now exists [Client.login (List.length (calls w)) (FREEIPA_USERNAME E) (FREEIPA_PASSWORD E);
                Client.ClientMeta (FREEIPA_SERVER E) (FREEIPA_VERIFY_SSL E)].
  - now exists [Client.login (List.length (calls w)) (FREEIPA_USERNAME E) (FREEIPA_PASSWORD E);
                Client.ClientMeta (FREEIPA_SERVER E) (FREEIPA_VERIFY_SSL E)].
Qed.

(** The three ways through the gate. *)
Lemma ensure_connection_cases (E : environment) (w : world) :
  ((freeipa_connected w = false \/ freeipa_client w = None) /\
     ensure_connection E w = connect_freeipa E w)
  \/
  (exists h r, freeipa_connected w = true /\ freeipa_client w = Some h /\
     backend E (calls w) (Client.ping h) = Returns r /\
     ensure_connection E w = (Returns true, record_call (Client.ping h) w))
  \/
  (exists h e, freeipa_connected w = true /\ freeipa_client w = Some h /\
     backend E (calls w) (Client.ping h) = Raises e /\
     ensure_connection E w = connect_freeipa E (record_call (Client.ping h) w)).
Proof.
  unfold ensure_connection. step_monad.
  destruct (freeipa_connected w) eqn:Hc; cbn; [| left; auto].
  destruct (freeipa_client w) as [h |] eqn:Hh; cbn; [| left; auto].
  rewrite ?Hh.
  right. destruct (backend E (calls w) (Client.ping h)) as [r | e] eqn:Hping.
  - left. exists h, r. auto.
  - right. exists h, e. auto.
Qed.

Lemma ensure_connection_returns (E : environment) (w : world) :
  exists ok, fst (ensure_connection E w) = Returns ok.
Proof.
  destruct (ensure_connection_cases E w)
    as [[_ H] | [(h & r & _ & _ & _ & H) | (h & e & _ & _ & _ & H)]];
    rewrite H; cbn; eauto using connect_freeipa_returns.
Qed.

Lemma ensure_connection_invariant (E : environment) (w : world) :
  session_invariant w -> session_invariant (snd (ensure_connection E w)).
Proof.
  intros Hinv.
  destruct (ensure_connection_cases E w)
    as [[_ H] | [(h & r & Hc & Hh & _ & H) | (h & e & _ & _ & _ & H)]];
    rewrite H; try apply connect_freeipa_invariant.
  unfold session_invariant. cbn. congruence.
Qed.

(** When the gate lets a handler through, the session is up on a handle. *)
Lemma ensure_connection_true (E : environment) (w w' : world) :
  ensure_connection E w = (Returns true, w') ->
  freeipa_connected w' = true /\ exists h, freeipa_client w' = Some h.
Proof.
  destruct (ensure_connection_cases E w)
    as [[_ H] | [(h & r & Hc & Hh & _ & H) | (h & e & _ & _ & _ & H)]];
    rewrite H; intros Heq.
  - apply connect_freeipa_true in Heq. destruct Heq; eauto.
  - inversion Heq; subst. cbn. eauto.
  - apply connect_freeipa_true in Heq. destruct Heq; eauto.
Qed.

Lemma ensure_connection_calls (E : environment) (w : world) :
  exists new, calls (snd (ensure_connection E w)) = (new ++ calls w)%list /\
              forallb is_session_call new = true.
Proof.
  destruct (ensure_connection_cases E w)
    as [[_ H] | [(h & r & _ & _ & _ & H) | (h & e & _ & _ & _ & H)]];
    rewrite H.
  - destruct (connect_freeipa_calls E w) as (new & Hnew & Hs & _). eauto.
  - cbn. now exists [Client.ping h].
  - destruct (connect_freeipa_calls E (record_call (Client.ping h) w))
      as (new & Hnew & Hs & _).
    exists (new ++ [Client.ping h])%list. split.
    + rewrite Hnew. cbn. now rewrite <- app_assoc.
    + rewrite forallb_app, Hs. reflexivity.
Qed.

(** [connect_freeipa] from the backend's answers. *)
Lemma connect_freeipa_run (E : environment) (w : world) :
  let ctor := Client.ClientMeta (FREEIPA_SERVER E) (FREEIPA_VERIFY_SSL E) in
  let h := List.length (calls w) in
  let log := Client.login h (FREEIPA_USERNAME E) (FREEIPA_PASSWORD E) in
  connect_freeipa E w =
  match backend E (calls w) ctor with
  | Raises _ =>
      (Returns false,
       {| freeipa_client := freeipa_client w; freeipa_connected := false;
          calls := ctor :: calls w; draws := draws w |})
  | Returns _ =>
      match backend E (ctor :: calls w) log with
      | Raises _ =>
          (Returns false,
           {| freeipa_client := Some h; freeipa_connected := false;
              calls := log :: ctor :: calls w; draws := draws w |})
      | Returns _ =>
          (Returns true,
           {| freeipa_client := Some h; freeipa_connected := true;
              calls := log :: ctor :: calls w; draws := draws w |})
      end
  end.
Proof.
  intros ctor h log. unfold connect_freeipa. step_monad. fold ctor.
  destruct (backend E (calls w) ctor) as [r | e]; [| reflexivity].
  cbn. fold h. fold log.
  destruct (backend E (ctor :: calls w) log); reflexivity.
Qed.

(** C1.  With the flag up and a handle present: when the ping returns, the
    gate returns success and has issued the ping and nothing else, so no
    reconnect attempt.  When the ping raises, the gate is the ping followed
    by one [connect_freeipa], whose result it returns, and that attempt is
    fixed by the backend's answers: one constructor call with the
    configured server and TLS flag; when it raises, the answer is failure
    and nothing more is issued; when it returns, one login on the new
    handle with the configured name and password, and the answer is
    success exactly when that login returns.  In each case one constructor
    call has been added to the history. *)
Theorem ensure_connection_when_connected (E : environment) (w : world) (h : handle) :
  freeipa_connected w = true ->
  freeipa_client w = Some h ->
  let probe := Client.ping h in
  let ctor := Client.ClientMeta (FREEIPA_SERVER E) (FREEIPA_VERIFY_SSL E) in
  let h' := S (List.length (calls w)) in
  let log := Client.login h' (FREEIPA_USERNAME E) (FREEIPA_PASSWORD E) in
  (forall r, backend E (calls w) probe = Returns r ->
     ensure_connection E w = (Returns true, record_call probe w) /\
     reconnect_attempts (calls (snd (ensure_connection E w))) =
     reconnect_attempts (calls w))
  /\
  (forall e, backend E (calls w) probe = Raises e ->
     ensure_connection E w = connect_freeipa E (record_call probe w) /\
     reconnect_attempts (calls (snd (ensure_connection E w))) =
     S (reconnect_attempts (calls w)) /\
     (forall e', backend E (probe :: calls w) ctor = Raises e' ->
        ensure_connection E w =
        (Returns false,
         {| freeipa_client := Some h; freeipa_connected := false;
            calls := ctor :: probe :: calls w; draws := draws w |})) /\
     (forall r e', backend E (probe :: calls w) ctor = Returns r ->
        backend E (ctor :: probe :: calls w) log = Raises e' ->
        ensure_connection E w =
        (Returns false,
         {| freeipa_client := Some h'; freeipa_connected := false;
            calls := log :: ctor :: probe :: calls w; draws := draws w |})) /\
     (forall r r', backend E (probe :: calls w) ctor = Returns r ->
        backend E (ctor :: probe :: calls w) log = Returns r' ->
        ensure_connection E w =
        (Returns true,
         {| freeipa_client := Some h'; freeipa_connected := true;
            calls := log :: ctor :: probe :: calls w; draws := draws w |}))).
Proof.
  intros Hc Hh probe ctor h' log. split.
  - intros r Hping.
    assert (Hrun : ensure_connection E w = (Returns true, record_call probe w)).
    { destruct (ensure_connection_cases E w)
        as [[[H | H] _] | [(h0 & r0 & _ & Hh0 & Hp & H) | (h0 & e0 & _ & Hh0 & Hp & H)]];
        try congruence; assert (h0 = h) by congruence; subst h0;
        unfold probe in *; congruence. }
    split; [exact Hrun |]. rewrite Hrun. reflexivity.
  - intros e Hping.
    assert (Hrun : ensure_connection E w = connect_freeipa E (record_call probe w)).
    { destruct (ensure_connection_cases E w)
        as [[[H | H] _] | [(h0 & r0 & _ & Hh0 & Hp & H) | (h0 & e0 & _ & Hh0 & Hp & H)]];
        try congruence; assert (h0 = h) by congruence; subst h0;
        unfold probe in *; congruence. }
    split; [exact Hrun |]. rewrite Hrun.
    rewrite (connect_freeipa_run E (record_call probe w)).
    cbn [calls record_call freeipa_client draws List.length].
    fold ctor. fold h'. fold log. rewrite Hh.
    destruct (backend E (probe :: calls w) ctor) as [r | e1].
    + destruct (backend E (ctor :: probe :: calls w) log) as [r' | e2];
        (split; [reflexivity |]); repeat split; intros; congruence.
    + split; [reflexivity |]. repeat split; intros; congruence.
Qed.

Lemma ensure_connection_when_connected_witness :
  (freeipa_connected connected_world = true /\
   freeipa_client connected_world = Some 0 /\
   backend (sample_env answers_all) (calls connected_world) (Client.ping 0) =
     Returns (sample_store 0) /\
   ensure_connection (sample_env answers_all) connected_world =
     (Returns true, record_call (Client.ping 0) connected_world))
  /\
  (backend (sample_env drops_ping) (calls connected_world) (Client.ping 0) =
     Raises (Exception "session expired") /\
   ensure_connection (sample_env drops_ping) connected_world =
     (Returns true,
      {| freeipa_client := Some 3; freeipa_connected := true;
         calls := Client.login 3 "admin" "secret"
                  :: Client.ClientMeta "ipa.example.test" false
                  :: Client.ping 0 :: calls connected_world;
         draws := 0 |})).
Proof.
  split.
  - repeat (split; [reflexivity |]).
    exact (proj1 (proj1 (ensure_connection_when_connected
                           (sample_env answers_all) connected_world 0 eq_refl eq_refl)
                        (sample_store 0) eq_refl)).
  - split; [reflexivity |].
    exact (proj2 (proj2 (proj2 (proj2
             (proj2 (ensure_connection_when_connected
                       (sample_env drops_ping) connected_world 0 eq_refl eq_refl)
                    (Exception "session expired") eq_refl))))
             (sample_store 0) (sample_store 0) eq_refl eq_refl).
Defined.

(** The ways through [freeipa_connect], as for [connect_freeipa] but with
    the caller's arguments. *)
Lemma freeipa_connect_cases (E : environment) (server username password : string)
                            (verify_ssl : bool) (w : world) :
  let ctor := Client.ClientMeta server verify_ssl in
  let h := List.length (calls w) in
  let log := Client.login h username password in
  (exists e, backend E (calls w) ctor = Raises e /\
     freeipa_connect E server username password verify_ssl w =
     (Returns (error (CONNECT_FAILED ++ str_exn e)),
      {| freeipa_client := freeipa_client w; freeipa_connected := false;
         calls := ctor :: calls w; draws := draws w |}))
  \/
  (exists r e, backend E (calls w) ctor = Returns r /\
     backend E (ctor :: calls w) log = Raises e /\
     freeipa_connect E server username password verify_ssl w =
     (Returns (error (CONNECT_FAILED ++ str_exn e)),
      {| freeipa_client := Some h; freeipa_connected := false;
         calls := log :: ctor :: calls w; draws := draws w |}))
  \/
  freeipa_connect E server username password verify_ssl w =
  (Returns (result (JStr (CONNECT_SUCCEEDED ++ server))),
   {| freeipa_client := Some h; freeipa_connected := true;
      calls := log :: ctor :: calls w; draws := draws w |}).
Proof.
  intros ctor h log. unfold freeipa_connect. step_monad.
  fold ctor.
  destruct (backend E (calls w) ctor) as [r | e] eqn:Hctor.
  - cbn. fold h. fold log.
    destruct (backend E (ctor :: calls w) log) as [r' | e'] eqn:Hlog; cbn.
    + right. right. reflexivity.
    + right. left. exists r, e'. auto.
  - left. exists e. split; reflexivity.
Qed.

Lemma freeipa_connect_invariant (E : environment) server username password verify_ssl
                                (w : world) :
  session_invariant (snd (freeipa_connect E server username password verify_ssl w)).
Proof.
  unfold session_invariant.
  destruct (freeipa_connect_cases E server username password verify_ssl w)
    as [[e [_ H]] | [(r & e & _ & _ & H) | H]]; rewrite H; cbn; congruence.
Qed.

(** C4 (as stated, refuted).  From the initial state, a connect whose
    login is rejected fails and lowers the flag, but the global still
    refers to the handle that was just built: it is not discarded. *)
Lemma freeipa_connect_keeps_attempted_handle :
  let run := freeipa_connect (sample_env rejects_login)
                             "ipa.example.test" "admin" "wrong" true initial_world in
  fst run = Returns (error (CONNECT_FAILED ++ "invalid credentials")) /\
  freeipa_connected (snd run) = false /\
  freeipa_client initial_world = None /\
  freeipa_client (snd run) = Some 0 /\
  freeipa_client (snd run) <> None.
Proof. cbv zeta. repeat split; try reflexivity. vm_compute. discriminate. Qed.

(** C4 (amended).  Every connect invocation that fails lowers the connected
    flag and returns a failure whose error text ends with the message of
    the backend's exception, and fails whenever the constructor or the
    login raises.  The handle slot is not cleared: when the constructor
    raised it keeps what it held before, when the login raised it holds
    the handle that was just built.  A failure outcome arises in no other
    way. *)
Theorem freeipa_connect_failure (E : environment) (server username password : string)
                                (verify_ssl : bool) (w : world) :
  let ctor := Client.ClientMeta server verify_ssl in
  let h := List.length (calls w) in
  let log := Client.login h username password in
  (forall e, backend E (calls w) ctor = Raises e ->
     freeipa_connect E server username password verify_ssl w =
     (Returns (JDict [("error", JStr (CONNECT_FAILED ++ str_exn e))]),
      {| freeipa_client := freeipa_client w; freeipa_connected := false;
         calls := ctor :: calls w; draws := draws w |}))
  /\
  (forall r e, backend E (calls w) ctor = Returns r ->
     backend E (ctor :: calls w) log = Raises e ->
     freeipa_connect E server username password verify_ssl w =
     (Returns (JDict [("error", JStr (CONNECT_FAILED ++ str_exn e))]),
      {| freeipa_client := Some h; freeipa_connected := false;
         calls := log :: ctor :: calls w; draws := draws w |}))
  /\
  (forall v w', freeipa_connect E server username password verify_ssl w = (Returns v, w') ->
     is_failure v = true ->
     freeipa_connected w' = false /\
     exists e,
       v = error (CONNECT_FAILED ++ str_exn e) /\
       ((backend E (calls w) ctor = Raises e /\ freeipa_client w' = freeipa_client w)
        \/
        (backend E (ctor :: calls w) log = Raises e /\ freeipa_client w' = Some h))).
Proof.
  intros ctor h log.
  pose proof (freeipa_connect_cases E server username password verify_ssl w) as Hcases.
  cbv zeta in Hcases. fold ctor in Hcases. fold h in Hcases. fold log in Hcases.
  split; [| split].
  - intros e Hctor.
    destruct Hcases as [(e0 & Hctor0 & H) | [(r & e0 & Hctor0 & Hlog0 & H) | H]].
    + assert (e0 = e) by congruence. subst e0. exact H.
    + congruence.
    + exfalso. revert H. unfold freeipa_connect. step_monad. fold ctor.
      rewrite Hctor. discriminate.
  - intros r e Hctor Hlog.
    destruct Hcases as [(e0 & Hctor0 & H) | [(r0 & e0 & Hctor0 & Hlog0 & H) | H]].
    + congruence.
    + assert (e0 = e) by congruence. subst e0. exact H.
    + exfalso. revert H. unfold freeipa_connect. step_monad. fold ctor.
      rewrite Hctor. cbn [fst snd calls record_call]. fold h. fold log.
      rewrite Hlog. discriminate.
  - intros v w' Hrun Hfail.
    destruct Hcases as [(e & Hctor & H) | [(r & e & Hctor & Hlog & H) | H]];
      rewrite H in Hrun; injection Hrun as Hv Hw; subst v w'.
    + split; [reflexivity |]. exists e. split; [reflexivity |]. left. auto.
    + split; [reflexivity |]. exists e. split; [reflexivity |]. right. auto.
    + discriminate Hfail.
Qed.

Lemma freeipa_connect_failure_witness :
  (backend (sample_env refuses_all) (calls connected_world)
           (Client.ClientMeta "ipa.example.test" true) =
     Raises (Exception "connection refused") /\
   freeipa_connect (sample_env refuses_all)
                   "ipa.example.test" "admin" "secret" true connected_world =
     (Returns (JDict [("error", JStr (CONNECT_FAILED ++ "connection refused"))]),
      {| freeipa_client := Some 0; freeipa_connected := false;
         calls := Client.ClientMeta "ipa.example.test" true :: calls connected_world;
         draws := 0 |}))
  /\
  (backend (sample_env rejects_login)
           (Client.ClientMeta "ipa.example.test" true :: calls connected_world)
           (Client.login 2 "admin" "wrong") =
     Raises (Exception "invalid credentials") /\
   freeipa_connect (sample_env rejects_login)
                   "ipa.example.test" "admin" "wrong" true connected_world =
     (Returns (JDict [("error", JStr (CONNECT_FAILED ++ "invalid credentials"))]),
      {| freeipa_client := Some 2; freeipa_connected := false;
         calls := Client.login 2 "admin" "wrong"
                  :: Client.ClientMeta "ipa.example.test" true :: calls connected_world;
         draws := 0 |})).
Proof.
  split; (split; [reflexivity |]).
  - exact (proj1 (freeipa_connect_failure (sample_env refuses_all)
                    "ipa.example.test" "admin" "secret" true connected_world)
                 (Exception "connection refused") eq_refl).
  - exact (proj1 (proj2 (freeipa_connect_failure (sample_env rejects_login)
                           "ipa.example.test" "admin" "wrong" true connected_world))
                 (sample_store 0) (Exception "invalid credentials") eq_refl eq_refl).
Defined.

(** The static-configuration connect fails the same way. *)
Lemma connect_freeipa_failure (E : environment) (w w' : world) :
  connect_freeipa E w = (Returns false, w') ->
  freeipa_connected w' = false /\
  (freeipa_client w' = freeipa_client w \/
   freeipa_client w' = Some (List.length (calls w))).
Proof.
  destruct (connect_freeipa_cases E w) as [[e [_ H]] | [[e [_ H]] | H]];
    rewrite H; intros Heq; inversion Heq; subst; cbn; auto.
Qed.

(** The ways through [freeipa_disconnect]. *)
Lemma freeipa_disconnect_cases (E : environment) (w : world) :
  (freeipa_client w = None /\
     freeipa_disconnect E w = (Returns (result (JStr DISCONNECTED)), cleared w))
  \/
  (exists h r, freeipa_client w = Some h /\
     backend E (calls w) (Client.logout h) = Returns r /\
     freeipa_disconnect E w =
     (Returns (result (JStr DISCONNECTED)), cleared (record_call (Client.logout h) w)))
  \/
  (exists h e, freeipa_client w = Some h /\
     backend E (calls w) (Client.logout h) = Raises e /\
     freeipa_disconnect E w =
     (Returns (error (DISCONNECT_FAILED ++ str_exn e)), record_call (Client.logout h) w)).
Proof.
  unfold freeipa_disconnect. step_monad.
  destruct (freeipa_client w) as [h |] eqn:Hh; cbn.
  - right. destruct (backend E (calls w) (Client.logout h)) as [r | e] eqn:Hout.
    + left. exists h, r. auto.
    + right. exists h, e. auto.
  - left. auto.
Qed.

Lemma freeipa_disconnect_invariant (E : environment) (w : world) :
  session_invariant w -> session_invariant (snd (freeipa_disconnect E w)).
Proof.
  intros Hinv. unfold session_invariant in *.
  destruct (freeipa_disconnect_cases E w)
    as [[_ H] | [(h & r & _ & _ & H) | (h & e & Hh & _ & H)]]; rewrite H; cbn;
    congruence.
Qed.

(** C5 (as stated, refuted).  With a session up on handle 0 and a backend
    whose logout raises, disconnect reports the failure and leaves the
    handle and the raised flag where they were. *)
Lemma freeipa_disconnect_blocked_by_logout_failure :
  let run := freeipa_disconnect (sample_env fails_logout) connected_world in
  fst run = Returns (error (DISCONNECT_FAILED ++ "logout failed")) /\
  freeipa_client (snd run) = Some 0 /\
  freeipa_connected (snd run) = true /\
  ~ (freeipa_client (snd run) = None /\ freeipa_connected (snd run) = false).
Proof.
  cbv zeta. repeat split; try reflexivity. vm_compute. intros [H _]. discriminate H.
Qed.

(** C5 (amended).  Disconnect clears the handle, lowers the flag and
    reports success whenever there is no handle or the backend logout
    returns.  When the logout raises, the failure is reported with the
    backend's message and the handle and the flag are left as they were. *)
Theorem freeipa_disconnect_clears_unless_logout_raises (E : environment) (w : world) :
  ((freeipa_client w = None \/
    exists h r, freeipa_client w = Some h /\
                backend E (calls w) (Client.logout h) = Returns r) ->
   fst (freeipa_disconnect E w) = Returns (result (JStr DISCONNECTED)) /\
   freeipa_client (snd (freeipa_disconnect E w)) = None /\
   freeipa_connected (snd (freeipa_disconnect E w)) = false)
  /\
  (forall h e, freeipa_client w = Some h ->
               backend E (calls w) (Client.logout h) = Raises e ->
   fst (freeipa_disconnect E w) = Returns (error (DISCONNECT_FAILED ++ str_exn e)) /\
   freeipa_client (snd (freeipa_disconnect E w)) = freeipa_client w /\
   freeipa_connected (snd (freeipa_disconnect E w)) = freeipa_connected w).
Proof.
  destruct (freeipa_disconnect_cases E w)
    as [[Hnone H] | [(h & r & Hh & Hout & H) | (h & e & Hh & Hout & H)]];
    rewrite H; cbn; split.
  - auto.
  - intros h e Hh. congruence.
  - auto.
  - intros h' e Hh' Hout'. assert (h' = h) by congruence. subst h'. congruence.
  - intros [Hnone | (h' & r & Hh' & Hout')]; [congruence |].
    assert (h' = h) by congruence. subst h'. congruence.
  - intros h' e' Hh' Hout'. assert (h' = h) by congruence. subst h'.
    assert (e' = e) by congruence. subst e'. auto.
Qed.

Lemma freeipa_disconnect_clears_unless_logout_raises_witness :
  (freeipa_client connected_world = Some 0 /\
   backend (sample_env answers_all) (calls connected_world) (Client.logout 0) =
     Returns (sample_store 0) /\
   freeipa_client (snd (freeipa_disconnect (sample_env answers_all) connected_world)) = None /\
   freeipa_connected (snd (freeipa_disconnect (sample_env answers_all) connected_world)) = false)
  /\
  (backend (sample_env fails_logout) (calls connected_world) (Client.logout 0) =
     Raises (Exception "logout failed") /\
   freeipa_client (snd (freeipa_disconnect (sample_env fails_logout) connected_world)) =
     freeipa_client connected_world).
Proof.
  split.
  - repeat (split; [reflexivity |]).
    apply (proj1 (freeipa_disconnect_clears_unless_logout_raises
                    (sample_env answers_all) connected_world)).
    right. exists 0, (sample_store 0). split; reflexivity.
  - split; [reflexivity |].
    apply (proj2 (freeipa_disconnect_clears_unless_logout_raises
                    (sample_env fails_logout) connected_world)
                 0 (Exception "logout failed") eq_refl eq_refl).
Defined.

(** ** Directory handlers *)

Section Frames.
  Context {A B : Type}.

Lemma frames_ret (a : A) : frames (ret a).
Proof. intros w. now split. Qed.

Lemma frames_raise (e : exn) : frames (@raise A e).
Proof. intros w. now split. Qed.

Lemma frames_lift (o : outcome A) : frames (lift o).
Proof. intros w. now split. Qed.

Lemma frames_bind (m : M A) (k : A -> M B) :
  frames m -> (forall a, frames (k a)) -> frames (bind m k).
Proof.
  intros Hm Hk w. unfold bind. specialize (Hm w).
  destruct (m w) as [[a | e] w1]; cbn in *; [| exact Hm].
  destruct (Hk a w1) as [H1 H2]. destruct Hm as [H3 H4]. split; congruence.
Qed.

Lemma frames_try_except (m : M A) (handler : exn -> M A) :
  frames m -> (forall e, frames (handler e)) -> frames (try_except m handler).
Proof.
  intros Hm Hh w. unfold try_except. specialize (Hm w).
  destruct (m w) as [[a | e] w1]; cbn in *; [exact Hm |].
  destruct (Hh e w1) as [H1 H2]. destruct Hm as [H3 H4]. split; congruence.
Qed.

Lemma returns_only_ret (P : A -> Prop) (a : A) : P a -> returns_only P (ret a).
Proof. intros Ha w a' w' Heq. inversion Heq. now subst. Qed.

Lemma returns_only_bind (P : B -> Prop) (m : M A) (k : A -> M B) :
  (forall a, returns_only P (k a)) -> returns_only P (bind m k).
Proof.
  intros Hk w b w' Heq. unfold bind in Heq.
  destruct (m w) as [[a | e] w1]; [| discriminate].
  exact (Hk a w1 b w' Heq).
Qed.

End Frames.

Lemma frames_invoke (E : environment) (c : Client.call) : frames (invoke E c).
Proof. intros w. now split. Qed.

Lemma frames_on_client (E : environment) (method : handle -> Client.call) :
  frames (on_client E method).
Proof.
  intros w. unfold on_client. step_monad.
  destruct (freeipa_client w) eqn:Hh; cbn; rewrite ?Hh; now split.
Qed.

Lemma frames_user_mod_with_keywords (E : environment) (uid : string)
                                    (params : list (string * node)) :
  frames (user_mod_with_keywords E uid params).
Proof.
  intros w. unfold user_mod_with_keywords. step_monad.
  destruct (freeipa_client w) eqn:Hh; [destruct (has_keyword "a_uid" params) |];
    cbn; rewrite ?Hh; now split.
Qed.

Lemma returns_only_raise {A} (P : A -> Prop) (e : exn) : returns_only P (raise e).
Proof. intros w a w' Heq. discriminate Heq. Qed.

Lemma frames_secrets_choice (E : environment) (alphabet : string) :
  frames (secrets_choice E alphabet).
Proof. intros w. unfold secrets_choice. cbn. now split. Qed.

Lemma frames_generate_password (E : environment) (length : nat) :
  frames (generate_password E length).
Proof.
  induction length as [| n IH]; cbn [generate_password].
  - apply frames_ret.
  - apply frames_bind; [apply frames_secrets_choice | intros c].
    apply frames_bind; [exact IH | intros rest]. apply frames_ret.
Qed.

Lemma frames_return_result (E : environment) (res default : node) :
  frames (return_result E res default).
Proof.
  unfold return_result.
  apply frames_bind; [apply frames_lift | intros payload].
  apply frames_bind; [apply frames_lift | intros v]. apply frames_ret.
Qed.

Lemma returns_only_return_result (E : environment) (res default : node) :
  returns_only (fun v => is_action_outcome v = true) (return_result E res default).
Proof.
  unfold return_result.
  apply returns_only_bind; intros payload.
  apply returns_only_bind; intros v.
  now apply returns_only_ret.
Qed.

Ltac frame :=
  repeat lazymatch goal with
  | |- frames (ret _) => apply frames_ret
  | |- frames (raise _) => apply frames_raise
  | |- frames (lift _) => apply frames_lift
  | |- frames (invoke _ _) => apply frames_invoke
  | |- frames (on_client _ _) => apply frames_on_client
  | |- frames (user_mod_with_keywords _ _ _) => apply frames_user_mod_with_keywords
  | |- frames (generate_password _ _) => apply frames_generate_password
  | |- frames (return_result _ _ _) => apply frames_return_result
  | |- frames (bind _ _) => apply frames_bind; [| intros ?]
  | |- frames (if ?c then _ else _) => destruct c
  | |- frames (let _ := _ in _) => cbv zeta
  end.

Ltac outcome_only :=
  repeat lazymatch goal with
  | |- returns_only _ (return_result _ _ _) => apply returns_only_return_result
  | |- returns_only _ (ret _) => apply returns_only_ret; reflexivity
  | |- returns_only _ (bind _ _) => apply returns_only_bind; intros ?
  | |- returns_only _ (if ?c then _ else _) => destruct c
  | |- returns_only _ (let _ := _ in _) => cbv zeta
  end.

(** Every directory handler is the gate followed by a guarded body that
    leaves the globals alone and returns action outcomes only; its handler
    turns the exception into an error outcome. *)
Lemma directory_handler_shape (E : environment) (a : action) :
  is_directory_handler a = true ->
  exists body text,
    run_action E a = gated E body (fun e => ret (error (text ++ str_exn e))) /\
    frames body /\
    returns_only (fun v => is_action_outcome v = true) body.
Proof.
  intros Ha.
  destruct a; try discriminate Ha; cbn [run_action];
    (eexists; eexists; split; [reflexivity | split; [frame | outcome_only]]).
Qed.

Lemma gated_when_gate_fails (E : environment) body on_error (w w' : world) :
  ensure_connection E w = (Returns false, w') ->
  gated E body on_error w = (Returns (error NOT_CONNECTED), w').
Proof. intros Hgate. unfold gated, bind. now rewrite Hgate. Qed.

Lemma gated_when_gate_passes (E : environment) body on_error (w w' : world) :
  ensure_connection E w = (Returns true, w') ->
  gated E body on_error w = try_except body on_error w'.
Proof. intros Hgate. unfold gated, bind. now rewrite Hgate. Qed.

Lemma gated_invariant (E : environment) body on_error (w : world) :
  frames body -> (forall e, frames (on_error e)) ->
  session_invariant w -> session_invariant (snd (gated E body on_error w)).
Proof.
  intros Hbody Hhandler Hinv.
  pose proof (ensure_connection_invariant E w Hinv) as Hgate.
  unfold gated, bind.
  destruct (ensure_connection E w) as [[[] | e] w1]; cbn in *; try exact Hgate.
  destruct (frames_try_except body on_error Hbody Hhandler w1) as [H1 H2].
  unfold session_invariant in *. intros Hup.
  rewrite H1. apply Hgate. now rewrite <- H2.
Qed.

Lemma gated_outcome (E : environment) body text (w : world) :
  returns_only (fun v => is_action_outcome v = true) body ->
  exists v, fst (gated E body (fun e => ret (error (text ++ str_exn e))) w) = Returns v /\
            is_action_outcome v = true.
Proof.
  intros Hbody. unfold gated, bind.
  destruct (ensure_connection_returns E w) as [ok Hok].
  destruct (ensure_connection E w) as [o w1]. cbn in Hok. subst o.
  destruct ok; cbn.
  - unfold try_except. destruct (body w1) as [[v | e] w2] eqn:Hrun; cbn.
    + exists v. split; [reflexivity |]. exact (Hbody w1 v w2 Hrun).
    + eexists. split; reflexivity.
  - eexists. split; reflexivity.
Qed.

Lemma session_calls_are_not_directory_calls (new : list Client.call) :
  forallb is_session_call new = true -> filter is_directory_call new = [].
Proof.
  induction new as [| c new IH]; intros Hsession; [reflexivity |].
  cbn in Hsession. apply andb_prop in Hsession. destruct Hsession as [Hc Hrest].
  cbn. unfold is_directory_call at 1. rewrite Hc. cbn. now apply IH.
Qed.

(** C7.  When the gate fails, every directory handler returns the
    not-connected error (the text the source gives it) in the state the
    gate left: the handler itself issues no call, and what the gate issued
    are session calls, so the directory calls on record are those that
    were there before. *)
Theorem gate_failure_short_circuits (E : environment) (a : action) (w w' : world) :
  is_directory_handler a = true ->
  ensure_connection E w = (Returns false, w') ->
  run_action E a w = (Returns (JDict [("error", JStr NOT_CONNECTED)]), w') /\
  directory_calls (calls w') = directory_calls (calls w).
Proof.
  intros Ha Hgate. split.
  - destruct (directory_handler_shape E a Ha) as (body & text & Hshape & _ & _).
    rewrite Hshape. now apply gated_when_gate_fails.
  - destruct (ensure_connection_calls E w) as (new & Hnew & Hsession).
    rewrite Hgate in Hnew. cbn in Hnew. rewrite Hnew.
    unfold directory_calls. rewrite filter_app.
    now rewrite (session_calls_are_not_directory_calls new Hsession).
Qed.

Lemma gate_failure_short_circuits_witness :
  ensure_connection (sample_env refuses_all) initial_world =
    (Returns false, snd (ensure_connection (sample_env refuses_all) initial_world)) /\
  fst (run_action (sample_env refuses_all) (User_list 100) initial_world) =
    Returns (JDict [("error", JStr NOT_CONNECTED)]) /\
  directory_calls
    (calls (snd (ensure_connection (sample_env refuses_all) initial_world))) = [].
Proof.
  split; [reflexivity |].
  destruct (gate_failure_short_circuits (sample_env refuses_all) (User_list 100)
              initial_world _ eq_refl eq_refl) as [Hrun Hcalls].
  split.
  - rewrite Hrun. reflexivity.
  - exact Hcalls.
Defined.

(** ** Credential reset *)

Lemma normalize_stored_phones (phones : list string) :
  comprehension normalize_phone_of (map NStr phones) =
  Returns (map normalize_phone phones).
Proof.
  induction phones as [| p phones IH]; [reflexivity |].
  cbn [map comprehension normalize_phone_of]. now rewrite IH.
Qed.

Lemma not_among (x : string) (l : list string) :
  ~ In x l -> existsb (String.eqb x) l = false.
Proof.
  intros Hnot. destruct (existsb (String.eqb x) l) eqn:Hex; [| reflexivity].
  apply existsb_exists in Hex. destruct Hex as (y & Hin & Heq).
  apply String.eqb_eq in Heq. subst y. contradiction.
Qed.

(** C8.  When the gate has passed and the lookup returns an account whose
    stored phone numbers are empty, or do not contain (after normalization
    on both sides) the caller's number, the handler returns the
    could-not-verify error (the text the source gives it) in the state
    right after the lookup: the lookup is the one directory call it made,
    and no modify and no change-password call follows. *)
Theorem forgot_reset_password_unverified
    (E : environment) (username phone new_password : string)
    (w w1 : world) (h : handle) (user_info : node) (phones : list string) :
  ensure_connection E w = (Returns true, w1) ->
  freeipa_client w1 = Some h ->
  backend E (calls w1) (Client.user_show h username) = Returns user_info ->
  stored_phones E user_info phones ->
  phones = [] \/ ~ In (normalize_phone phone) (map normalize_phone phones) ->
  forgot_reset_password E username phone new_password w =
    (Returns (JDict [("error", JStr PHONE_NOT_VERIFIED)]),
     record_call (Client.user_show h username) w1) /\
  directory_calls (calls (record_call (Client.user_show h username) w1)) =
    Client.user_show h username :: directory_calls (calls w).
Proof.
  intros Hgate Hclient Hlookup (info & items & Hinfo & Hphones & Hitems) Hunverified.
  split.
  - unfold forgot_reset_password.
    unfold bind at 1. rewrite Hgate. cbn [negb].
    step_monad. rewrite Hclient, Hlookup, Hinfo, Hphones.
    cbn [iterate]. rewrite Hitems, normalize_stored_phones.
    assert (Hcond : negb (truthy (NList items))
                    || negb (existsb (String.eqb (normalize_phone phone))
                                     (map normalize_phone phones)) = true).
    { destruct Hunverified as [-> | Hnot].
      - destruct items; [reflexivity | discriminate Hitems].
      - rewrite (not_among _ _ Hnot). apply orb_true_r. }
    rewrite Hcond. reflexivity.
  - destruct (ensure_connection_calls E w) as (new & Hnew & Hsession).
    rewrite Hgate in Hnew. cbn in Hnew. cbn [calls record_call]. rewrite Hnew.
    unfold directory_calls. cbn [filter is_directory_call is_session_call negb].
    f_equal. rewrite filter_app.
    now rewrite (session_calls_are_not_directory_calls new Hsession).
Qed.

Lemma forgot_reset_password_unverified_witness :
  let E := sample_env answers_all in
  let w1 := record_call (Client.ping 0) connected_world in
  ensure_connection E connected_world = (Returns true, w1) /\
  backend E (calls w1) (Client.user_show 0 "alice") = Returns (sample_store 0) /\
  ~ In (normalize_phone "+905550000000") (map normalize_phone ["0555 123-4567"]) /\
  forgot_reset_password E "alice" "+905550000000" EmptyString connected_world =
    (Returns (JDict [("error", JStr PHONE_NOT_VERIFIED)]),
     record_call (Client.user_show 0 "alice") w1).
Proof.
  cbv zeta.
  assert (Hnot : ~ In (normalize_phone "+905550000000")
                      (map normalize_phone ["0555 123-4567"])).
  { vm_compute. intros [H | []]. discriminate H. }
  repeat (split; [first [reflexivity | exact Hnot] |]).
  apply (forgot_reset_password_unverified (sample_env answers_all)
           "alice" "+905550000000" EmptyString connected_world
           (record_call (Client.ping 0) connected_world) 0 (sample_store 0)
           ["0555 123-4567"] eq_refl eq_refl eq_refl).
  - exists (sample_store 1), [3]. repeat split; reflexivity.
  - right. exact Hnot.
Defined.

(** With the stored number matching, the reset goes through: lookup and
    modify, and a generated password of twelve characters is returned. *)
Example forgot_reset_password_verified :
  let run := forgot_reset_password (sample_env answers_all)
                                   "alice" "+90 555 123 45 67" EmptyString connected_world in
  fst run =
    Returns (JDict [("result", JStr "Şifre başarıyla sıfırlandı. Yeni şifre kullanıcıya iletildi.");
                    ("username", JStr "alice");
                    ("new_password", JStr "abcdefghijkl")]) /\
  directory_calls (calls (snd run)) =
    [Client.user_mod 0 "alice" [("o_userpassword", NStr "abcdefghijkl")];
     Client.user_show 0 "alice"].
Proof. cbv zeta. split; reflexivity. Qed.

(** ** Session invariant and action outcomes *)

(** The ways through [freeipa_status]. *)
Lemma freeipa_status_cases (E : environment) (w : world) :
  (freeipa_connected w = false /\
     freeipa_status E w = (Returns (error NOT_CONNECTED), w))
  \/
  (freeipa_connected w = true /\ freeipa_client w = None /\
     freeipa_status E w = (Returns JNull, w))
  \/
  (exists h v w', freeipa_connected w = true /\ freeipa_client w = Some h /\
     freeipa_status E w = (Returns v, w') /\
     is_action_outcome v = true /\
     freeipa_client w' = Some h).
Proof.
  unfold freeipa_status. step_monad.
  destruct (freeipa_connected w) eqn:Hc; cbn [negb]; [| left; auto].
  right. destruct (freeipa_client w) as [h |] eqn:Hh; [| left; auto].
  right. exists h.
  destruct (backend E (calls w) (Client.ping h)) as [r | e].
  - destruct (safe_json_serialize_default (heap E) r) as [v | e];
      do 2 eexists; repeat split;
      cbn [freeipa_client record_call]; rewrite ?Hh; reflexivity.
  - do 2 eexists. repeat split;
      cbn [freeipa_client record_call]; rewrite ?Hh; reflexivity.
Qed.

Lemma freeipa_status_invariant (E : environment) (w : world) :
  session_invariant w -> session_invariant (snd (freeipa_status E w)).
Proof.
  intros Hinv.
  destruct (freeipa_status_cases E w)
    as [[_ H] | [(_ & _ & H) | (h & v & w' & _ & _ & H & _ & Hh)]];
    rewrite H; cbn; try exact Hinv.
  unfold session_invariant. congruence.
Qed.

Lemma run_action_invariant (E : environment) (a : action) (w : world) :
  session_invariant w -> session_invariant (snd (run_action E a w)).
Proof.
  intros Hinv.
  destruct (is_directory_handler a) eqn:Ha.
  - destruct (directory_handler_shape E a Ha) as (body & text & Hshape & Hframes & _).
    rewrite Hshape. apply gated_invariant; [exact Hframes | | exact Hinv].
    intros e. apply frames_ret.
  - destruct a; try discriminate Ha; cbn [run_action].
    + apply freeipa_connect_invariant.
    + now apply freeipa_disconnect_invariant.
    + now apply freeipa_status_invariant.
Qed.

Lemma step_invariant (E : environment) (op : operation) (w : world) :
  session_invariant w -> session_invariant (step E op w).
Proof.
  intros Hinv. destruct op as [a | |]; cbn [step].
  - now apply run_action_invariant.
  - now apply ensure_connection_invariant.
  - apply connect_freeipa_invariant.
Qed.

Lemma run_invariant (E : environment) (ops : list operation) : forall w,
  session_invariant w -> session_invariant (run E ops w).
Proof.
  unfold run. induction ops as [| op ops IH]; intros w Hinv; cbn [fold_left].
  - exact Hinv.
  - apply IH. now apply step_invariant.
Qed.

(** C10.  In every state that a sequence of operations (tool calls, the
    gate, the startup connect) leads to from the initial state, whatever
    the backend answers, the connected flag is up only when the handle
    slot holds a handle. *)
Theorem connected_implies_handle (E : environment) (ops : list operation) :
  freeipa_connected (run E ops initial_world) = true ->
  freeipa_client (run E ops initial_world) <> None.
Proof.
  apply (run_invariant E ops initial_world).
  unfold session_invariant. cbn. discriminate.
Qed.

Lemma connected_implies_handle_witness :
  let ops := [Startup_event; Tool (User_list 100); Tool Freeipa_status] in
  freeipa_connected (run (sample_env answers_all) ops initial_world) = true /\
  freeipa_client (run (sample_env answers_all) ops initial_world) <> None.
Proof.
  cbv zeta. split; [reflexivity |].
  apply (connected_implies_handle (sample_env answers_all)
           [Startup_event; Tool (User_list 100); Tool Freeipa_status]).
  reflexivity.
Defined.

(** In the state with the flag up and no handle, which no operation leads
    to, [freeipa_status] reaches no [return] and gives [None]. *)
Example freeipa_status_returns_none :
  fst (run_action (sample_env answers_all) Freeipa_status flag_without_handle) =
    Returns JNull /\
  is_action_outcome JNull = false.
Proof. split; reflexivity. Qed.

(** An action returns an outcome in every state, [freeipa_status] in every
    state that has a handle whenever the flag is up. *)
Lemma run_action_outcome (E : environment) (a : action) (w : world) :
  (a = Freeipa_status -> session_invariant w) ->
  exists v, fst (run_action E a w) = Returns v /\ is_action_outcome v = true.
Proof.
  intros Hinv.
  destruct (is_directory_handler a) eqn:Ha.
  - destruct (directory_handler_shape E a Ha) as (body & text & Hshape & _ & Hbody).
    rewrite Hshape. now apply gated_outcome.
  - destruct a; try discriminate Ha; cbn [run_action].
    + destruct (freeipa_connect_cases E server username password verify_ssl w)
        as [[e [_ H]] | [(r & e & _ & _ & H) | H]]; rewrite H; cbn; eauto.
    + destruct (freeipa_disconnect_cases E w)
        as [[_ H] | [(h & r & _ & _ & H) | (h & e & _ & _ & H)]]; rewrite H; cbn; eauto.
    + destruct (freeipa_status_cases E w)
        as [[_ H] | [(Hc & Hh & _) | (h & v & w' & _ & _ & H & Hv & _)]].
      * rewrite H. cbn. eauto.
      * exfalso. now apply (Hinv eq_refl Hc).
      * rewrite H. cbn. eauto.
Qed.

(** C6.  In every session state that operations lead to from the initial
    state, every action, whatever its arguments and whatever the backend
    answers, returns a mapping with a result field or with an error field,
    and not with both: no exception leaves a handler and no action returns
    an absent outcome.  For every action other than the status probe this
    holds in any state whatsoever. *)
Theorem every_action_returns_an_outcome (E : environment) (a : action) :
  (forall ops : list operation,
     exists v, fst (run_action E a (run E ops initial_world)) = Returns v /\
               is_action_outcome v = true)
  /\
  (a <> Freeipa_status ->
   forall w, exists v, fst (run_action E a w) = Returns v /\
                       is_action_outcome v = true).
Proof.
  split.
  - intros ops. apply run_action_outcome. intros _.
    apply run_invariant. unfold session_invariant. cbn. discriminate.
  - intros Ha w. apply run_action_outcome. intros Heq. contradiction.
Qed.

Lemma every_action_returns_an_outcome_witness :
  (exists v, fst (run_action (sample_env answers_all) Freeipa_status
                             (run (sample_env answers_all)
                                  [Startup_event; Tool Freeipa_disconnect] initial_world)) =
               Returns v /\
             is_action_outcome v = true)
  /\
  (User_list 100 <> Freeipa_status /\
   exists v, fst (run_action (sample_env refuses_all) (User_list 100) flag_without_handle) =
               Returns v /\
             is_action_outcome v = true).
Proof.
  split.
  - exact (proj1 (every_action_returns_an_outcome (sample_env answers_all) Freeipa_status)
                 [Startup_event; Tool Freeipa_disconnect]).
  - assert (Hne : User_list 100 <> Freeipa_status) by discriminate.
    split; [exact Hne |].
    exact (proj2 (every_action_returns_an_outcome (sample_env refuses_all) (User_list 100))
                 Hne flag_without_handle).
Defined.

(** * Further properties *)

(** ** Result normalizer *)

(** X1.  With no more levels to go than the default call has (a bound at
    most ten above the depth), the normalizer returns a value exactly when
    [str(key)] returns for every key of every dictionary it reaches through
    lists and tuples within the bound; otherwise it raises. *)
Theorem safe_json_serialize_returns_iff (heap : store) (obj : node)
                                        (max_depth current_depth : Z) :
  (max_depth - current_depth <= 10)%Z ->
  ((exists v, safe_json_serialize heap obj max_depth current_depth = Returns v) <->
   keys_printable heap (Z.to_nat (max_depth - current_depth + 1)) obj).
Proof. intros _. unfold safe_json_serialize. apply serialize_levels_returns. Qed.

Lemma safe_json_serialize_returns_iff_witness :
  (10 - 0 <= 10)%Z /\
  ~ keys_printable sample_store (Z.to_nat (10 - 0 + 1)) (NList [0; 5]) /\
  ~ exists v, safe_json_serialize sample_store (NList [0; 5]) 10 0 = Returns v.
Proof.
  assert (Hbound : (10 - 0 <= 10)%Z) by lia.
  assert (Hkeys : ~ keys_printable sample_store (Z.to_nat (10 - 0 + 1)) (NList [0; 5])).
  { intros H. cbn in H. inversion H as [| ? ? _ H5]; subst.
    inversion H5 as [| ? ? Hdict _]; subst.
    inversion Hdict as [| ? ? [k Hk] _]; subst. discriminate Hk. }
  split; [exact Hbound |]. split; [exact Hkeys |].
  intros Hret. apply Hkeys.
  exact (proj1 (safe_json_serialize_returns_iff sample_store (NList [0; 5]) 10 0 Hbound)
               Hret).
Defined.

Lemma string_keyed_printable (heap : store) (levels : nat) : forall obj,
  string_keyed obj -> (forall r, string_keyed (heap r)) ->
  keys_printable heap levels obj.
Proof.
  induction levels as [| below IH]; intros obj Hobj Hheap; [exact I |].
  destruct obj; cbn [keys_printable]; auto.
  - apply Forall_forall. intros r _. apply IH; auto.
  - apply Forall_forall. intros r _. apply IH; auto.
  - cbn in Hobj. eapply Forall_impl; [| exact Hobj].
    intros [key value] [s Hs]. cbn in *. subst key. now exists s.
Qed.

(** X2.  On a payload all of whose dictionaries have string keys, the
    normalizer returns whenever it has no more levels to go than the
    default call has (a bound at most ten above the depth), however the
    payload is nested or refers to itself. *)
Theorem safe_json_serialize_on_string_keys (heap : store) (obj : node)
                                           (max_depth current_depth : Z) :
  (max_depth - current_depth <= 10)%Z ->
  string_keyed obj ->
  (forall r, string_keyed (heap r)) ->
  exists v, safe_json_serialize heap obj max_depth current_depth = Returns v.
Proof.
  intros _ Hobj Hheap. unfold safe_json_serialize. apply serialize_levels_returns.
  now apply string_keyed_printable.
Qed.

Lemma comprehension_all {A B} (P : B -> Prop) (f : A -> outcome B) (xs : list A) ys :
  (forall x y, f x = Returns y -> P y) ->
  comprehension f xs = Returns ys -> Forall P ys.
Proof.
  intros Hf. revert ys. induction xs as [| x xs IH]; cbn [comprehension]; intros ys H.
  - inversion H. constructor.
  - destruct (f x) as [y |] eqn:Hy; [| discriminate].
    destruct (comprehension f xs) as [zs |]; [| discriminate].
    inversion H; subst. constructor; eauto.
Qed.

Lemma comprehension_length {A B} (f : A -> outcome B) (xs : list A) ys :
  comprehension f xs = Returns ys -> List.length ys = List.length xs.
Proof.
  revert ys. induction xs as [| x xs IH]; cbn [comprehension]; intros ys H.
  - now inversion H.
  - destruct (f x) as [y |]; [| discriminate].
    destruct (comprehension f xs) as [zs |]; [| discriminate].
    inversion H; subst. cbn. f_equal. now apply IH.
Qed.

Lemma max_within (n : nat) (ds : list nat) :
  Forall (fun d => d <= n) ds -> fold_right Nat.max 0 ds <= n.
Proof. induction 1; cbn; lia. Qed.

Lemma dict_set_within (n : nat) (d : list (string * jvalue)) k v :
  Forall (fun kv => jdepth (snd kv) <= n) d -> jdepth v <= n ->
  Forall (fun kv => jdepth (snd kv) <= n) (dict_set d k v).
Proof.
  intros Hd Hv. induction Hd as [| [k' v'] d Hkv Hd IH]; cbn [dict_set].
  - constructor; [exact Hv | constructor].
  - destruct (String.eqb k' k); constructor; auto.
Qed.

Lemma dict_loop_within (n : nat) value_of items : forall acc d,
  (forall r v, value_of r = Returns v -> jdepth v <= n) ->
  Forall (fun kv => jdepth (snd kv) <= n) acc ->
  dict_loop value_of acc items = Returns d ->
  Forall (fun kv => jdepth (snd kv) <= n) d.
Proof.
  induction items as [| [key value] items IH]; intros acc d Hf Hacc Hrun;
    cbn [dict_loop] in Hrun.
  - now inversion Hrun; subst.
  - destruct (dict_step value_of acc (key, value)) as [acc' |] eqn:Hstep;
      [| discriminate].
    apply (IH acc' d Hf); [| exact Hrun].
    unfold dict_step in Hstep.
    destruct (value_of value) as [v | e] eqn:Hv;
      destruct (str_key key) as [k | e']; inversion Hstep; subst;
      apply dict_set_within; eauto; cbn; lia.
Qed.

Lemma serialize_levels_depth (heap : store) (levels : nat) : forall obj v,
  serialize_levels heap levels obj = Returns v -> jdepth v <= levels.
Proof.
  induction levels as [| below IH]; intros obj v H.
  - inversion H. cbn. lia.
  - assert (Hseq : forall items,
      as_list (comprehension
                 (fun item => serialize_levels heap below (heap item)) items) = Returns v ->
      jdepth v <= S below).
    { intros items Hv. unfold as_list in Hv.
      destruct (comprehension _ items) as [vs |] eqn:Hc; [| discriminate].
      inversion Hv; subst. cbn [jdepth]. apply le_n_S, max_within.
      apply Forall_map.
      eapply comprehension_all; [| exact Hc]. intros r y Hy. exact (IH _ _ Hy). }
    destruct obj as [| b | z | f | s | items | items | items | [s | e]];
      cbn [serialize_levels] in H; try (inversion H; cbn; lia); try (now apply (Hseq items)).
    unfold as_dict in H.
    destruct (dict_loop _ [] items) as [d |] eqn:Hd; [| discriminate].
    inversion H; subst. cbn [jdepth]. apply le_n_S, max_within.
    apply Forall_map.
    eapply dict_loop_within; [| constructor | exact Hd].
    intros r y Hy. exact (IH _ _ Hy).
Qed.

(** X3.  What the normalizer returns nests containers no deeper than the
    levels it was given: [max_depth - current_depth + 1], the last of them
    holding the placeholders. *)
Theorem safe_json_serialize_depth (heap : store) (obj : node)
                                  (max_depth current_depth : Z) (v : jvalue) :
  safe_json_serialize heap obj max_depth current_depth = Returns v ->
  jdepth v <= Z.to_nat (max_depth - current_depth + 1).
Proof. apply serialize_levels_depth. Qed.

Lemma safe_json_serialize_depth_witness :
  safe_json_serialize sample_store (sample_store 4) 2 0 =
    Returns (JList [JList [JList [JStr "[Max Depth Exceeded]"]]]) /\
  jdepth (JList [JList [JList [JStr "[Max Depth Exceeded]"]]]) <= 3.
Proof.
  split; [reflexivity |].
  exact (safe_json_serialize_depth sample_store (sample_store 4) 2 0 _ eq_refl).
Defined.

Lemma safe_json_serialize_on_string_keys_witness :
  (10 - 0 <= 10)%Z /\
  string_keyed (sample_store 0) /\
  exists v, safe_json_serialize (fun r => if Nat.eqb r 5 then NNone else sample_store r)
                                (sample_store 0) 10 0 = Returns v.
Proof.
  assert (Hobj : string_keyed (sample_store 0)).
  { cbn. apply Forall_cons; [eexists; reflexivity | apply Forall_nil]. }
  split; [lia |]. split; [exact Hobj |].
  apply (safe_json_serialize_on_string_keys
           (fun r => if Nat.eqb r 5 then NNone else sample_store r)
           (sample_store 0) 10 0 ltac:(lia) Hobj).
  intros r.
  do 8 (destruct r as [| r];
        [cbn; first [exact I
                    | repeat first [apply Forall_nil
                                   | apply Forall_cons; [eexists; reflexivity |]]] |]).
  exact I.
Defined.

(** X4.  Within the bound, a list and a tuple both come back as a list
    with as many elements as they had. *)
Theorem sequences_keep_their_length (heap : store) (items : list ref)
                                    (max_depth current_depth : Z) (v : jvalue) :
  (current_depth <= max_depth)%Z ->
  safe_json_serialize heap (NList items) max_depth current_depth = Returns v \/
  safe_json_serialize heap (NTuple items) max_depth current_depth = Returns v ->
  exists vs, v = JList vs /\ List.length vs = List.length items.
Proof.
  intros Hle H. rewrite !safe_json_serialize_eq in H.
  destruct (Z.gtb_spec current_depth max_depth) as [Hgt | _]; [lia |].
  assert (Hv : as_list (comprehension
                 (fun item => safe_json_serialize heap (heap item) max_depth
                                                  (current_depth + 1)) items) = Returns v)
    by (destruct H; assumption).
  unfold as_list in Hv.
  destruct (comprehension _ items) as [vs |] eqn:Hc; [| discriminate].
  inversion Hv; subst. exists vs. split; [reflexivity |].
  now apply comprehension_length in Hc.
Qed.

Lemma sequences_keep_their_length_witness :
  (0 <= 10)%Z /\
  safe_json_serialize sample_store (NTuple [3; 6; 7]) 10 0 =
    Returns (JList [JStr "0555 123-4567"; JStr "alice"; JInt 1]) /\
  exists vs, JList [JStr "0555 123-4567"; JStr "alice"; JInt 1] = JList vs /\
             List.length vs = 3.
Proof.
  split; [lia |]. split; [reflexivity |].
  apply (sequences_keep_their_length sample_store [3; 6; 7] 10 0); [lia |].
  right. reflexivity.
Defined.

Lemma dict_find_set (d : list (string * jvalue)) (k k' : string) (v : jvalue) :
  dict_find (dict_set d k v) k' = if String.eqb k k' then Some v else dict_find d k'.
Proof.
  induction d as [| [k0 v0] d IH]; cbn [dict_set dict_find].
  - reflexivity.
  - destruct (String.eqb k0 k) eqn:H0; cbn [dict_find].
    + apply String.eqb_eq in H0. subst k0. now destruct (String.eqb k k').
    + destruct (String.eqb k0 k') eqn:H1; [| exact IH].
      apply String.eqb_eq in H1. subst k0.
      rewrite String.eqb_sym in H0. now rewrite H0.
Qed.

Lemma dict_set_keys (d : list (string * jvalue)) (k : string) (v : jvalue) :
  NoDup (map fst d) -> NoDup (map fst (dict_set d k v)).
Proof.
  intros Hd. induction d as [| [k0 v0] d IH]; cbn [dict_set].
  - cbn. constructor; [intros [] | constructor].
  - inversion Hd as [| ? ? Hnot Hrest]; subst.
    destruct (String.eqb k0 k) eqn:H0; [exact Hd |].
    cbn [map fst]. constructor; [| now apply IH].
    intros Hin. apply Hnot. clear - Hin H0.
    induction d as [| [k1 v1] d IHd]; cbn [dict_set map fst] in *.
    + destruct Hin as [<- | []]. now rewrite String.eqb_refl in H0.
    + destruct (String.eqb k1 k); cbn [map fst] in *; [exact Hin |].
      destruct Hin as [-> | Hin]; [now left | right; now apply IHd].
Qed.

Lemma dict_step_writes value_of acc item acc' :
  dict_step value_of acc item = Returns acc' ->
  exists k, str_key (fst item) = Returns k /\
            acc' = dict_set acc k (written value_of item).
Proof.
  destruct item as [key value]. unfold dict_step, written. cbn [fst snd].
  destruct (value_of value) as [v | e]; destruct (str_key key) as [k | e'];
    intros H; inversion H; subst; eauto.
Qed.

Lemma dict_loop_last_write value_of items : forall acc d,
  NoDup (map fst acc) ->
  dict_loop value_of acc items = Returns d ->
  NoDup (map fst d) /\
  forall k, dict_find d k =
            match last_write value_of items k with
            | Some v => Some v
            | None => dict_find acc k
            end.
Proof.
  induction items as [| item items IH]; intros acc d Hacc Hrun;
    cbn [dict_loop last_write] in *.
  - inversion Hrun; subst. auto.
  - destruct (dict_step value_of acc item) as [acc' |] eqn:Hstep; [| discriminate].
    destruct (dict_step_writes _ _ _ _ Hstep) as (k0 & Hk0 & ->).
    destruct (IH _ d (dict_set_keys acc k0 _ Hacc) Hrun) as [Hnodup Hfind].
    split; [exact Hnodup |]. intros k. rewrite Hfind, Hk0.
    destruct (last_write value_of items k); [reflexivity |].
    rewrite dict_find_set. now destruct (String.eqb k0 k).
Qed.

(** X5.  Within the bound a dictionary comes back as a dictionary with
    distinct string keys, and under each key string stands what the last
    item with that key string wrote (keys that collide after [str] are
    resolved last-write-wins): the normalized value, or the
    "[Serialization Error: ...]" placeholder when normalizing it raised. *)
Theorem dictionaries_are_last_write_wins (heap : store) (items : list (pykey * ref))
                                         (max_depth current_depth : Z) (v : jvalue) :
  (current_depth <= max_depth)%Z ->
  safe_json_serialize heap (NDict items) max_depth current_depth = Returns v ->
  exists d,
    v = JDict d /\
    NoDup (map fst d) /\
    forall k, dict_find d k =
              last_write (fun value => safe_json_serialize heap (heap value) max_depth
                                                           (current_depth + 1)) items k.
Proof.
  intros Hle H. rewrite safe_json_serialize_eq in H.
  destruct (Z.gtb_spec current_depth max_depth) as [Hgt | _]; [lia |].
  unfold as_dict in H.
  destruct (dict_loop _ [] items) as [d |] eqn:Hd; [| discriminate].
  inversion H; subst. exists d. split; [reflexivity |].
  destruct (dict_loop_last_write _ items [] d (NoDup_nil _) Hd) as [Hnodup Hfind].
  split; [exact Hnodup |]. intros k. rewrite Hfind.
  now destruct (last_write _ items k).
Qed.

Lemma dictionaries_are_last_write_wins_witness :
  let items := [(KOther (Returns "1"), 6); (KStr "x", 5); (KStr "1", 7)] in
  let v := JDict [("1", JInt 1); ("x", JStr "[Serialization Error: boom]")] in
  (0 <= 10)%Z /\
  safe_json_serialize sample_store (NDict items) 10 0 = Returns v /\
  exists d,
    v = JDict d /\
    NoDup (map fst d) /\
    forall k, dict_find d k =
              last_write (fun value => safe_json_serialize sample_store (sample_store value)
                                                           10 (0 + 1)) items k.
Proof.
  cbv zeta. split; [lia |]. split; [reflexivity |].
  apply (dictionaries_are_last_write_wins sample_store
           [(KOther (Returns "1"), 6); (KStr "x", 5); (KStr "1", 7)] 10 0); [lia |].
  reflexivity.
Defined.

(** ** Phone normalization *)

Lemma remove_char_subset (c a : ascii) (s : string) :
  In a (list_ascii_of_string (remove_char c s)) ->
  In a (list_ascii_of_string s) /\ a <> c.
Proof.
  induction s as [| b rest IH]; cbn [remove_char list_ascii_of_string]; [intros [] |].
  destruct (Ascii.eqb b c) eqn:Hbc.
  - intros H. destruct (IH H). split; [now right | assumption].
  - cbn [list_ascii_of_string]. intros [-> | H].
    + split; [now left |]. now apply Ascii.eqb_neq.
    + destruct (IH H). split; [now right | assumption].
Qed.

Lemma remove_char_absent (c : ascii) (s : string) :
  free_of c s -> remove_char c s = s.
Proof.
  unfold free_of. induction s as [| b rest IH]; cbn [remove_char list_ascii_of_string];
    [reflexivity |].
  intros Hfree. destruct (Ascii.eqb b c) eqn:Hbc.
  - apply Ascii.eqb_eq in Hbc. subst b. exfalso. apply Hfree. now left.
  - f_equal. apply IH. intros Hin. apply Hfree. now right.
Qed.

Lemma remove_first_char_subset (c a : ascii) (s : string) :
  In a (list_ascii_of_string (remove_first_char c s)) -> In a (list_ascii_of_string s).
Proof.
  induction s as [| b rest IH]; cbn [remove_first_char list_ascii_of_string]; [intros [] |].
  destruct (Ascii.eqb b c).
  - intros H. now right.
  - cbn [list_ascii_of_string]. intros [-> | H]; [now left | right; now apply IH].
Qed.

Lemma remove_every_plus90_absent (s : string) :
  free_of "+" s -> remove_every_plus90 s = s.
Proof.
  unfold free_of. induction s as [| a rest IH]; [reflexivity |].
  cbn [list_ascii_of_string]. intros Hfree.
  rewrite remove_every_plus90_step.
  assert (Hp : String.prefix "+90" (String a rest) = false).
  { cbn [String.prefix]. destruct (ascii_dec "+" a) as [<- | _]; [| reflexivity].
    exfalso. apply Hfree. now left. }
  rewrite Hp. f_equal. apply IH. intros Hin. apply Hfree. now right.
Qed.

(** X6.  What the normalization returns contains no space and no hyphen,
    whatever the input. *)
Theorem normalize_phone_has_no_separators (phone : string) :
  free_of " " (normalize_phone phone) /\ free_of "-" (normalize_phone phone).
Proof.
  unfold normalize_phone, free_of.
  rewrite (replace_char_all "-"), (replace_char_all " ").
  split; intros Hin; apply remove_char_subset in Hin; destruct Hin as [Hin Hne].
  - apply remove_char_subset in Hin. destruct Hin as [_ Hne']. now apply Hne'.
  - now apply Hne.
Qed.

(** X7.  For a subscriber number [d] without "+", space or hyphen: the
    national form "0"+d normalizes to [d] itself, while the international
    form "+90"+d and the bare form [d] both normalize to [d] without its
    first "0".  So the three forms of one number agree exactly when the
    bare number loses nothing, that is when it holds no "0". *)
Theorem normalize_phone_forms (d : string) :
  free_of "+" d -> free_of " " d -> free_of "-" d ->
  normalize_phone ("0" ++ d) = d /\
  normalize_phone ("+90" ++ d) = remove_first_char "0" d /\
  normalize_phone d = remove_first_char "0" d.
Proof.
  intros Hplus Hspace Hhyphen.
  assert (Hrest : remove_char "-" (remove_char " " (remove_first_char "0" d)) =
                  remove_first_char "0" d).
  { rewrite (remove_char_absent " ").
    - apply remove_char_absent. intros Hin. apply Hhyphen.
      now apply remove_first_char_subset in Hin.
    - intros Hin. apply Hspace. now apply remove_first_char_subset in Hin. }
  unfold normalize_phone.
  rewrite !(replace_char_all "-"), !(replace_char_all " "), !(replace_char_first "0"),
          !replace_plus90.
  repeat split.
  - assert (H0 : remove_every_plus90 ("0" ++ d) = "0" ++ d).
    { apply remove_every_plus90_absent. unfold free_of in *.
      cbn. intros [H | H]; [discriminate H | now apply Hplus]. }
    rewrite H0. cbn [append remove_first_char Ascii.eqb Bool.eqb].
    rewrite (remove_char_absent " " d Hspace). now apply remove_char_absent.
  - assert (H0 : remove_every_plus90 ("+90" ++ d) = d).
    { cbn [append remove_every_plus90]. now apply remove_every_plus90_absent. }
    rewrite H0. exact Hrest.
  - rewrite (remove_every_plus90_absent d Hplus). exact Hrest.
Qed.

Lemma normalize_phone_forms_witness :
  free_of "+" "5051234567" /\ free_of " " "5051234567" /\ free_of "-" "5051234567" /\
  normalize_phone "05051234567" = "5051234567" /\
  normalize_phone "+905051234567" = "551234567" /\
  normalize_phone "5051234567" = "551234567".
Proof.
  assert (H : forall c, (c = "+" \/ c = " " \/ c = "-")%char -> free_of c "5051234567").
  { intros c Hc Hin. cbn in Hin.
    repeat (destruct Hin as [<- | Hin]; [destruct Hc as [Hc | [Hc | Hc]]; discriminate Hc |]).
    exact Hin. }
  repeat (split; [apply H; auto |]).
  exact (normalize_phone_forms "5051234567" (H _ (or_introl eq_refl))
           (H _ (or_intror (or_introl eq_refl))) (H _ (or_intror (or_intror eq_refl)))).
Defined.

(** ** Session manager *)

(** X8.  The gate's answer is the connected flag it leaves behind, and a
    positive answer comes with a handle in the slot: a caller that was let
    through never sees a session that is half up. *)
Theorem gate_answer_is_the_flag (E : environment) (w w' : world) (ok : bool) :
  ensure_connection E w = (Returns ok, w') ->
  freeipa_connected w' = ok /\
  (ok = true -> exists h, freeipa_client w' = Some h).
Proof.
  intros Hrun.
  assert (Hconnect : forall w0, connect_freeipa E w0 = (Returns ok, w') ->
            freeipa_connected w' = ok /\
            (ok = true -> exists h, freeipa_client w' = Some h)).
  { intros w0 H0.
    destruct (connect_freeipa_cases E w0) as [[e [_ H]] | [[e [_ H]] | H]];
      rewrite H in H0; inversion H0; subst; cbn; split; eauto; discriminate. }
  destruct (ensure_connection_cases E w)
    as [[_ H] | [(h & r & Hc & Hh & _ & H) | (h & e & _ & _ & _ & H)]];
    rewrite H in Hrun; eauto.
  inversion Hrun; subst. cbn. split; eauto.
Qed.

Lemma gate_answer_is_the_flag_witness :
  ensure_connection (sample_env drops_ping) connected_world =
    (Returns true, snd (ensure_connection (sample_env drops_ping) connected_world)) /\
  freeipa_connected (snd (ensure_connection (sample_env drops_ping) connected_world)) = true.
Proof.
  split; [reflexivity |].
  exact (proj1 (gate_answer_is_the_flag (sample_env drops_ping) connected_world _ true
                  eq_refl)).
Defined.

(** X9.  In every state and against every backend the gate returns
    without raising, and what it issues is at most three calls, all of them
    session calls, with at most one constructor call among them: there is
    no retry loop. *)
Theorem gate_is_bounded (E : environment) (w : world) :
  (exists ok, fst (ensure_connection E w) = Returns ok) /\
  exists new,
    calls (snd (ensure_connection E w)) = (new ++ calls w)%list /\
    forallb is_session_call new = true /\
    reconnect_attempts new <= 1 /\
    List.length new <= 3.
Proof.
  split; [apply ensure_connection_returns |].
  assert (Hconnect : forall w0, exists new,
            calls (snd (connect_freeipa E w0)) = (new ++ calls w0)%list /\
            forallb is_session_call new = true /\
            reconnect_attempts new = 1 /\ List.length new <= 2).
  { intros w0.
    destruct (connect_freeipa_cases E w0) as [[e [_ H]] | [[e [_ H]] | H]];
      rewrite H; cbn [snd calls].
    - exists [Client.ClientMeta (FREEIPA_SERVER E) (FREEIPA_VERIFY_SSL E)].
      repeat split; cbn; lia.
    - exists [Client.login (List.length (calls w0)) (FREEIPA_USERNAME E) (FREEIPA_PASSWORD E);
              Client.ClientMeta (FREEIPA_SERVER E) (FREEIPA_VERIFY_SSL E)].
      repeat split; cbn; lia.
    - exists [Client.login (List.length (calls w0)) (FREEIPA_USERNAME E) (FREEIPA_PASSWORD E);
              Client.ClientMeta (FREEIPA_SERVER E) (FREEIPA_VERIFY_SSL E)].
      repeat split; cbn; lia. }
  destruct (ensure_connection_cases E w)
    as [[_ H] | [(h & r & _ & _ & _ & H) | (h & e & _ & _ & _ & H)]]; rewrite H.
  - destruct (Hconnect w) as (new & Hnew & Hs & Hr & Hl).
    exists new. repeat split; auto; lia.
  - exists [Client.ping h]. repeat split; cbn; lia.
  - destruct (Hconnect (record_call (Client.ping h) w)) as (new & Hnew & Hs & Hr & Hl).
    exists (new ++ [Client.ping h])%list. repeat split.
    + rewrite Hnew. cbn [calls record_call]. now rewrite <- app_assoc.
    + rewrite forallb_app, Hs. reflexivity.
    + unfold reconnect_attempts in *. rewrite filter_app, length_app, Hr. cbn. lia.
    + rewrite length_app. cbn. lia.
Qed.

(** X10.  With the flag down or the slot empty the gate does not probe:
    it is [connect_freeipa] and nothing else, so the first call it issues
    is the constructor with the configured server and TLS flag. *)
Theorem gate_connects_without_probe (E : environment) (w : world) :
  freeipa_connected w = false \/ freeipa_client w = None ->
  ensure_connection E w = connect_freeipa E w /\
  let ctor := Client.ClientMeta (FREEIPA_SERVER E) (FREEIPA_VERIFY_SSL E) in
  let log := Client.login (List.length (calls w)) (FREEIPA_USERNAME E) (FREEIPA_PASSWORD E) in
  (calls (snd (ensure_connection E w)) = ctor :: calls w \/
   calls (snd (ensure_connection E w)) = log :: ctor :: calls w).
Proof.
  intros Hdown.
  assert (Hrun : ensure_connection E w = connect_freeipa E w).
  { destruct (ensure_connection_cases E w)
      as [[_ H] | [(h & r & Hc & Hh & _ & H) | (h & e & Hc & Hh & _ & H)]];
      [exact H | destruct Hdown; congruence | destruct Hdown; congruence]. }
  split; [exact Hrun |]. rewrite Hrun. cbv zeta.
  destruct (connect_freeipa_cases E w) as [[e [_ H]] | [[e [_ H]] | H]];
    rewrite H; cbn [snd calls]; auto.
Qed.

Lemma gate_connects_without_probe_witness :
  freeipa_connected initial_world = false /\
  ensure_connection (sample_env answers_all) initial_world =
    connect_freeipa (sample_env answers_all) initial_world.
Proof.
  split; [reflexivity |].
  exact (proj1 (gate_connects_without_probe (sample_env answers_all) initial_world
                  (or_introl eq_refl))).
Defined.

(** X11.  [connect_freeipa] never raises; it answers [True] exactly when
    the constructor call and the login call on the new handle both return,
    and [False] otherwise. *)
Theorem connect_freeipa_succeeds_iff (E : environment) (w : world) :
  let ctor := Client.ClientMeta (FREEIPA_SERVER E) (FREEIPA_VERIFY_SSL E) in
  let log := Client.login (List.length (calls w)) (FREEIPA_USERNAME E) (FREEIPA_PASSWORD E) in
  (exists ok, fst (connect_freeipa E w) = Returns ok) /\
  (fst (connect_freeipa E w) = Returns true <->
   (exists r, backend E (calls w) ctor = Returns r) /\
   (exists r, backend E (ctor :: calls w) log = Returns r)).
Proof.
  intros ctor log. split; [apply connect_freeipa_returns |].
  unfold connect_freeipa. step_monad. fold ctor.
  destruct (backend E (calls w) ctor) as [r | e].
  - cbn. fold log. destruct (backend E (ctor :: calls w) log) as [r' | e']; cbn.
    + split; eauto.
    + split; [discriminate | intros [_ [x Hx]]; discriminate Hx].
  - cbn. split; [discriminate | intros [[x Hx] _]; discriminate Hx].
Qed.

(** X12.  After a connect that failed, a status call answers the
    not-connected error at once: it issues no backend call and changes
    nothing. *)
Theorem status_after_failed_connect
    (E : environment) (server username password : string) (verify_ssl : bool)
    (w w' : world) (v : jvalue) :
  freeipa_connect E server username password verify_ssl w = (Returns v, w') ->
  is_failure v = true ->
  freeipa_status E w' = (Returns (JDict [("error", JStr NOT_CONNECTED)]), w').
Proof.
  intros Hrun Hfail.
  assert (Hdown : freeipa_connected w' = false).
  { destruct (freeipa_connect_cases E server username password verify_ssl w)
      as [(e & _ & H) | [(r & e & _ & _ & H) | H]];
      rewrite H in Hrun; inversion Hrun; subst; [reflexivity | reflexivity |].
    discriminate Hfail. }
  destruct (freeipa_status_cases E w')
    as [[_ H] | [(Hc & _) | (h & v' & w'' & Hc & _)]]; [exact H | congruence | congruence].
Qed.

Lemma status_after_failed_connect_witness :
  let run := freeipa_connect (sample_env rejects_login)
                             "ipa.example.test" "admin" "wrong" true initial_world in
  is_failure (JDict [("error", JStr (CONNECT_FAILED ++ "invalid credentials"))]) = true /\
  freeipa_status (sample_env rejects_login) (snd run) =
    (Returns (JDict [("error", JStr NOT_CONNECTED)]), snd run).
Proof.
  cbv zeta. split; [reflexivity |].
  exact (status_after_failed_connect (sample_env rejects_login)
           "ipa.example.test" "admin" "wrong" true initial_world _ _ eq_refl eq_refl).
Defined.

(** What [freeipa_status] does once the flag is up and a handle is there:
    one ping; a ping that raises, or a ping result on which the normalizer
    raises, lowers the flag. *)
Lemma freeipa_status_probe (E : environment) (w : world) (h : handle) :
  freeipa_connected w = true -> freeipa_client w = Some h ->
  freeipa_status E w =
  match backend E (calls w) (Client.ping h) with
  | Returns res =>
      match safe_json_serialize_default (heap E) res with
      | Returns v => (Returns (result v), record_call (Client.ping h) w)
      | Raises e => (Returns (error (STATUS_FAILED ++ str_exn e)),
                     lowered (record_call (Client.ping h) w))
      end
  | Raises e => (Returns (error (STATUS_FAILED ++ str_exn e)),
                 lowered (record_call (Client.ping h) w))
  end.
Proof.
  intros Hc Hh. unfold freeipa_status. step_monad.
  rewrite Hc. cbn [negb]. rewrite Hh.
  destruct (backend E (calls w) (Client.ping h)) as [res | e]; [| reflexivity].
  destruct (safe_json_serialize_default (heap E) res); reflexivity.
Qed.

(** X13.  After a connect that succeeded the session is up on the handle
    that connect built, whatever the slot held before, and a status call
    then issues exactly one call: a ping on that handle. *)
Theorem status_after_connect
    (E : environment) (server username password : string) (verify_ssl : bool)
    (w w' : world) (v : jvalue) :
  freeipa_connect E server username password verify_ssl w = (Returns v, w') ->
  is_failure v = false ->
  v = JDict [("result", JStr (CONNECT_SUCCEEDED ++ server))] /\
  freeipa_connected w' = true /\
  freeipa_client w' = Some (List.length (calls w)) /\
  calls (snd (freeipa_status E w')) = Client.ping (List.length (calls w)) :: calls w'.
Proof.
  intros Hrun Hok.
  destruct (freeipa_connect_cases E server username password verify_ssl w)
    as [(e & _ & H) | [(r & e & _ & _ & H) | H]];
    rewrite H in Hrun; injection Hrun as Hv Hw; subst v w';
    try discriminate Hok.
  repeat split.
  set (h := List.length (calls w)).
  set (w1 := {| freeipa_client := Some h; freeipa_connected := true;
                calls := Client.login h username password
                         :: Client.ClientMeta server verify_ssl :: calls w;
                draws := draws w |}).
  rewrite (freeipa_status_probe E w1 h eq_refl eq_refl).
  destruct (backend E (calls w1) (Client.ping h)) as [res | e]; [| reflexivity].
  destruct (safe_json_serialize_default (heap E) res); reflexivity.
Qed.

Lemma status_after_connect_witness :
  let run := freeipa_connect (sample_env answers_all)
                             "ipa.example.test" "admin" "secret" true connected_world in
  fst run = Returns (JDict [("result", JStr (CONNECT_SUCCEEDED ++ "ipa.example.test"))]) /\
  freeipa_client (snd run) = Some 2 /\
  calls (snd (freeipa_status (sample_env answers_all) (snd run))) =
    Client.ping 2 :: calls (snd run).
Proof.
  cbv zeta. split; [reflexivity |].
  destruct (status_after_connect (sample_env answers_all)
              "ipa.example.test" "admin" "secret" true connected_world _ _
              eq_refl eq_refl) as (_ & _ & Hh & Hcalls).
  split; [exact Hh | exact Hcalls].
Defined.

(** X14.  Disconnect with an empty slot issues no backend call and
    reports success.  So after a disconnect that succeeded, a second
    disconnect is a successful no-op, and a status call answers the
    not-connected error without a backend call. *)
Theorem after_disconnect (E : environment) (w w' : world) (v : jvalue) :
  freeipa_disconnect E w = (Returns v, w') ->
  is_failure v = false ->
  freeipa_client w' = None /\ freeipa_connected w' = false /\
  freeipa_disconnect E w' = (Returns (JDict [("result", JStr DISCONNECTED)]), w') /\
  freeipa_status E w' = (Returns (JDict [("error", JStr NOT_CONNECTED)]), w').
Proof.
  intros Hrun Hok.
  assert (Hcleared : freeipa_client w' = None /\ freeipa_connected w' = false).
  { destruct (freeipa_disconnect_cases E w)
      as [[_ H] | [(h & r & _ & _ & H) | (h & e & _ & _ & H)]];
      rewrite H in Hrun; injection Hrun as Hv Hw; subst v w';
      first [now split | discriminate Hok]. }
  destruct Hcleared as [Hnone Hdown]. repeat split; auto.
  - destruct (freeipa_disconnect_cases E w')
      as [[_ H] | [(h & r & Hh & _) | (h & e & Hh & _)]]; try congruence.
    rewrite H. f_equal. destruct w'; cbn in *; subst; reflexivity.
  - destruct (freeipa_status_cases E w')
      as [[_ H] | [(Hc & _) | (h & v' & w'' & Hc & _)]]; [exact H | congruence | congruence].
Qed.

Lemma after_disconnect_witness :
  let run := freeipa_disconnect (sample_env answers_all) connected_world in
  fst run = Returns (JDict [("result", JStr DISCONNECTED)]) /\
  freeipa_disconnect (sample_env answers_all) (snd run) =
    (Returns (JDict [("result", JStr DISCONNECTED)]), snd run).
Proof.
  cbv zeta. split; [reflexivity |].
  exact (proj1 (proj2 (proj2 (after_disconnect (sample_env answers_all) connected_world
                                 _ _ eq_refl eq_refl)))).
Defined.

(** X15.  A status call never changes the handle slot and never raises
    the flag; with the flag down it issues no backend call and changes
    nothing at all. *)
Theorem status_only_lowers_the_flag (E : environment) (w : world) :
  freeipa_client (snd (freeipa_status E w)) = freeipa_client w /\
  (freeipa_connected (snd (freeipa_status E w)) = true -> freeipa_connected w = true) /\
  (freeipa_connected w = false ->
   freeipa_status E w = (Returns (JDict [("error", JStr NOT_CONNECTED)]), w)).
Proof.
  destruct (freeipa_status_cases E w)
    as [[Hc H] | [(Hc & Hh & H) | (h & v & w' & Hc & Hh & H & _ & Hh')]];
    rewrite H; cbn [snd]; repeat split; auto; congruence.
Qed.

Lemma status_only_lowers_the_flag_witness :
  freeipa_connected initial_world = false /\
  freeipa_status (sample_env answers_all) initial_world =
    (Returns (JDict [("error", JStr NOT_CONNECTED)]), initial_world).
Proof.
  split; [reflexivity |].
  exact (proj2 (proj2 (status_only_lowers_the_flag (sample_env answers_all) initial_world))
               eq_refl).
Defined.

(** X16.  A status call whose ping raises reports the backend's message,
    lowers the flag and keeps the handle; the next pass through the gate
    then reconnects with the configured values without probing the old
    handle again. *)
Theorem failed_probe_forces_reconnect (E : environment) (w : world) (h : handle) (e : exn) :
  freeipa_connected w = true ->
  freeipa_client w = Some h ->
  backend E (calls w) (Client.ping h) = Raises e ->
  let w' := lowered (record_call (Client.ping h) w) in
  freeipa_status E w = (Returns (JDict [("error", JStr (STATUS_FAILED ++ str_exn e))]), w') /\
  freeipa_client w' = Some h /\
  ensure_connection E w' = connect_freeipa E w'.
Proof.
  intros Hc Hh Hping. cbv zeta. split; [| split].
  - rewrite (freeipa_status_probe E w h Hc Hh), Hping. reflexivity.
  - exact Hh.
  - destruct (ensure_connection_cases E (lowered (record_call (Client.ping h) w)))
      as [[_ H] | [(h' & r & Hc' & _) | (h' & e' & Hc' & _)]];
      [exact H | discriminate Hc' | discriminate Hc'].
Qed.

Lemma failed_probe_forces_reconnect_witness :
  freeipa_connected connected_world = true /\
  freeipa_client connected_world = Some 0 /\
  backend (sample_env drops_ping) (calls connected_world) (Client.ping 0) =
    Raises (Exception "session expired") /\
  freeipa_status (sample_env drops_ping) connected_world =
    (Returns (JDict [("error", JStr (STATUS_FAILED ++ "session expired"))]),
     lowered (record_call (Client.ping 0) connected_world)).
Proof.
  repeat (split; [reflexivity |]).
  exact (proj1 (failed_probe_forces_reconnect (sample_env drops_ping) connected_world 0
                  (Exception "session expired") eq_refl eq_refl eq_refl)).
Defined.

(** ** Directory handlers *)

Lemma gated_frames (E : environment) body on_error (w : world) :
  frames body -> (forall e, frames (on_error e)) ->
  freeipa_client (snd (gated E body on_error w)) =
    freeipa_client (snd (ensure_connection E w)) /\
  freeipa_connected (snd (gated E body on_error w)) =
    freeipa_connected (snd (ensure_connection E w)).
Proof.
  intros Hbody Hhandler. unfold gated, bind.
  destruct (ensure_connection E w) as [[[] | e] w1]; cbn [negb snd]; auto.
  apply (frames_try_except body on_error Hbody Hhandler w1).
Qed.

(** X17.  A directory handler leaves the handle slot and the connected
    flag exactly as the gate left them, whatever the backend answers: a
    directory call that fails does not mark the session as down. *)
Theorem directory_handlers_keep_the_session (E : environment) (a : action) (w : world) :
  is_directory_handler a = true ->
  freeipa_client (snd (run_action E a w)) = freeipa_client (snd (ensure_connection E w)) /\
  freeipa_connected (snd (run_action E a w)) =
    freeipa_connected (snd (ensure_connection E w)).
Proof.
  intros Ha.
  destruct (directory_handler_shape E a Ha) as (body & text & Hshape & Hframes & _).
  rewrite Hshape. apply gated_frames; [exact Hframes |].
  intros e. apply frames_ret.
Qed.

Lemma directory_handlers_keep_the_session_witness :
  is_directory_handler (User_show "alice") = true /\
  freeipa_connected (snd (run_action (sample_env refuses_all) (User_show "alice")
                                     initial_world)) =
  freeipa_connected (snd (ensure_connection (sample_env refuses_all) initial_world)).
Proof.
  split; [reflexivity |].
  exact (proj2 (directory_handlers_keep_the_session (sample_env refuses_all)
                  (User_show "alice") initial_world eq_refl)).
Defined.

(** A simple handler that got through the gate: one call, then the tail. *)
Lemma simple_handler_run (E : environment) (a : action) (w w1 : world)
                         (h : handle) (c : Client.call) :
  is_simple_handler a = true ->
  ensure_connection E w = (Returns true, w1) ->
  freeipa_client w1 = Some h ->
  directory_call a h = Some c ->
  run_action E a w =
  (match backend E (calls w1) c with
   | Returns res =>
       match py_get (heap E) res "result" (default_payload a) with
       | Returns payload =>
           match safe_json_serialize_default (heap E) payload with
           | Returns v => Returns (result v)
           | Raises e => Returns (error (error_text a ++ str_exn e))
           end
       | Raises e => Returns (error (error_text a ++ str_exn e))
       end
   | Raises e => Returns (error (error_text a ++ str_exn e))
   end,
   record_call c w1).
Proof.
  intros Ha Hgate Hclient Hcall.
  destruct a; try discriminate Ha; cbn [run_action directory_call] in *.
  all: try (cbv zeta in Hcall;
            match type of Hcall with
            | (if ?b then _ else _) = _ =>
                destruct b eqn:Hclash; [discriminate Hcall |]
            end).
  all: injection Hcall as <-; cbn [default_payload error_text].
  all: unfold change_password, user_list, user_show, user_add, user_modify,
              group_list, group_show, group_add, group_add_member,
              group_remove_member.
  all: unfold bind at 1; rewrite Hgate; cbn [negb]; unfold return_result, optional.
  all: try (destruct (nonempty cn); destruct (nonempty description); cbn [andb]).
  all: step_monad; rewrite Hclient;
    try match goal with
        | H : has_keyword _ _ = false |- _ => rewrite H
        end;
    match goal with
    | |- context [backend ?E0 (calls ?w0) ?c] =>
        destruct (backend E0 (calls w0) c) as [res | e]; [| reflexivity]
    end;
    match goal with
    | |- context [py_get ?hp ?r ?k ?d] =>
        destruct (py_get hp r k d) as [payload | e]; [| reflexivity]
    end;
    destruct (safe_json_serialize_default (heap E) payload); reflexivity.
Qed.

(** The lookup of the credential reset raised: the handler's own [except]. *)
Lemma forgot_reset_password_lookup_raises
    (E : environment) (username phone new_password : string)
    (w w1 : world) (h : handle) (e : exn) :
  ensure_connection E w = (Returns true, w1) ->
  freeipa_client w1 = Some h ->
  backend E (calls w1) (Client.user_show h username) = Raises e ->
  forgot_reset_password E username phone new_password w =
    (Returns (error (RESET_FAILED ++ str_exn e)),
     record_call (Client.user_show h username) w1).
Proof.
  intros Hgate Hclient Hlookup. unfold forgot_reset_password.
  unfold bind at 1. rewrite Hgate. cbn [negb].
  step_monad. rewrite Hclient, Hlookup. reflexivity.
Qed.

(** X18.  When the gate has let a directory handler through and the
    handler's first backend call raises, the handler returns an error
    outcome made of its own text followed by the exception's message, in
    the state right after that one call.  The call carries the handler's
    parameters under the backend's field names: [user_modify] passes the
    keyword arguments that are not [None] (and issues this call only when
    none of them is itself named [a_uid]), [group_list] passes each filter
    that is not empty. *)
Theorem backend_rejection_is_reported
    (E : environment) (a : action) (w w1 : world) (h : handle)
    (c : Client.call) (e : exn) :
  ensure_connection E w = (Returns true, w1) ->
  freeipa_client w1 = Some h ->
  directory_call a h = Some c ->
  backend E (calls w1) c = Raises e ->
  run_action E a w =
    (Returns (JDict [("error", JStr (error_text a ++ str_exn e))]), record_call c w1).
Proof.
  intros Hgate Hclient Hcall Hraise.
  destruct (is_simple_handler a) eqn:Ha.
  - rewrite (simple_handler_run E a w w1 h c Ha Hgate Hclient Hcall), Hraise.
    reflexivity.
  - destruct a; try discriminate Ha; try discriminate Hcall.
    cbn [directory_call] in Hcall. injection Hcall as <-.
    cbn [run_action error_text].
    now apply forgot_reset_password_lookup_raises.
Qed.

Lemma backend_rejection_is_reported_witness :
  let E := sample_env denies_group_find in
  let w1 := record_call (Client.ping 0) connected_world in
  ensure_connection E connected_world = (Returns true, w1) /\
  directory_call (Group_list 100 "eng*" EmptyString) 0 =
    Some (Client.group_find 0 (Some "eng*") None 100) /\
  run_action E (Group_list 100 "eng*" EmptyString) connected_world =
    (Returns (JDict [("error", JStr ("Grup listesi alınırken hata: " ++ "permission denied"))]),
     record_call (Client.group_find 0 (Some "eng*") None 100) w1).
Proof.
  cbv zeta. split; [reflexivity |]. split; [reflexivity |].
  exact (backend_rejection_is_reported (sample_env denies_group_find)
           (Group_list 100 "eng*" EmptyString) connected_world
           (record_call (Client.ping 0) connected_world) 0
           (Client.group_find 0 (Some "eng*") None 100) (Exception "permission denied")
           eq_refl eq_refl eq_refl eq_refl).
Defined.

(** X19.  When the gate has let a one-call handler through, its call is
    issued ([user_modify] has no keyword named [a_uid]) and returns a
    mapping, and the normalizer returns on its [result] field, the handler
    returns that normalized value under [result], having issued that one
    call. *)
Theorem backend_answer_is_normalized
    (E : environment) (a : action) (w w1 : world) (h : handle)
    (c : Client.call) (items : list (pykey * ref)) (r : ref) (v : jvalue) :
  is_simple_handler a = true ->
  ensure_connection E w = (Returns true, w1) ->
  freeipa_client w1 = Some h ->
  directory_call a h = Some c ->
  backend E (calls w1) c = Returns (NDict items) ->
  dict_lookup items "result" = Some r ->
  safe_json_serialize (heap E) (heap E r) 10 0 = Returns v ->
  run_action E a w = (Returns (JDict [("result", v)]), record_call c w1).
Proof.
  intros Ha Hgate Hclient Hcall Hres Hfield Hv.
  rewrite (simple_handler_run E a w w1 h c Ha Hgate Hclient Hcall), Hres.
  cbn [py_get]. rewrite Hfield.
  unfold safe_json_serialize_default. now rewrite Hv.
Qed.

Lemma backend_answer_is_normalized_witness :
  let E := sample_env answers_all in
  let w1 := record_call (Client.ping 0) connected_world in
  ensure_connection E connected_world = (Returns true, w1) /\
  backend E (calls w1) (Client.user_show 0 "alice") =
    Returns (NDict [(KStr "result", 1)]) /\
  run_action E (User_show "alice") connected_world =
    (Returns (JDict [("result",
                      JDict [("uid", JStr "alice");
                             ("telephonenumber", JList [JStr "0555 123-4567"])])]),
     record_call (Client.user_show 0 "alice") w1).
Proof.
  cbv zeta. split; [reflexivity |]. split; [reflexivity |].
  exact (backend_answer_is_normalized (sample_env answers_all) (User_show "alice")
           connected_world (record_call (Client.ping 0) connected_world) 0
           (Client.user_show 0 "alice") [(KStr "result", 1)] 1
           (JDict [("uid", JStr "alice");
                   ("telephonenumber", JList [JStr "0555 123-4567"])])
           eq_refl eq_refl eq_refl eq_refl eq_refl eq_refl eq_refl).
Defined.

(** X20.  When a one-call handler's call is issued ([user_modify] has no
    keyword named [a_uid]) and the mapping the backend returns has no
    [result] key, the handler returns an empty value under [result]: an
    empty list for the two listings, an empty mapping for the others. *)
Theorem missing_result_gives_empty
    (E : environment) (a : action) (w w1 : world) (h : handle)
    (c : Client.call) (items : list (pykey * ref)) :
  is_simple_handler a = true ->
  ensure_connection E w = (Returns true, w1) ->
  freeipa_client w1 = Some h ->
  directory_call a h = Some c ->
  backend E (calls w1) c = Returns (NDict items) ->
  dict_lookup items "result" = None ->
  run_action E a w = (Returns (JDict [("result", empty_payload a)]), record_call c w1).
Proof.
  intros Ha Hgate Hclient Hcall Hres Hfield.
  rewrite (simple_handler_run E a w w1 h c Ha Hgate Hclient Hcall), Hres.
  cbn [py_get]. rewrite Hfield.
  destruct a; try discriminate Ha; reflexivity.
Qed.

Lemma missing_result_gives_empty_witness :
  let E := sample_env answers_without_result in
  let w1 := record_call (Client.ping 0) connected_world in
  ensure_connection E connected_world = (Returns true, w1) /\
  run_action E (User_list 100) connected_world =
    (Returns (JDict [("result", JList [])]), record_call (Client.user_find 0 100) w1).
Proof.
  cbv zeta. split; [reflexivity |].
  exact (missing_result_gives_empty (sample_env answers_without_result) (User_list 100)
           connected_world (record_call (Client.ping 0) connected_world) 0
           (Client.user_find 0 100) [(KStr "count", 7)]
           eq_refl eq_refl eq_refl eq_refl eq_refl eq_refl).
Defined.

(** X26.  When a keyword argument of [user_modify] that is not [None]
    is itself named [a_uid], binding the arguments of
    [user_mod(a_uid=uid, **params)] fails: the handler returns an error
    outcome with its own text in the state the gate left, and no backend
    call is issued. *)
Theorem user_modify_keyword_clash
    (E : environment) (uid : string) (kwargs : list (string * node))
    (w w1 : world) (h : handle) :
  ensure_connection E w = (Returns true, w1) ->
  freeipa_client w1 = Some h ->
  has_keyword "a_uid" (filter (fun kv => is_not_None (snd kv)) kwargs) = true ->
  exists message,
    user_modify E uid kwargs w =
      (Returns (JDict [("error", JStr ("Kullanıcı güncellenirken hata: " ++ message))]), w1).
Proof.
  intros Hgate Hclient Hclash.
  exists "got multiple values for keyword argument 'a_uid'".
  unfold user_modify. unfold bind at 1. rewrite Hgate. cbn [negb].
  step_monad. rewrite Hclient, Hclash. reflexivity.
Qed.

Lemma user_modify_keyword_clash_witness :
  let w1 := record_call (Client.ping 0) connected_world in
  ensure_connection (sample_env answers_all) connected_world = (Returns true, w1) /\
  has_keyword "a_uid"
    (filter (fun kv => is_not_None (snd kv)) [("a_uid", NStr "eve"); ("o_mail", NNone)]) =
    true /\
  exists message,
    user_modify (sample_env answers_all) "bob"
                [("a_uid", NStr "eve"); ("o_mail", NNone)] connected_world =
      (Returns (JDict [("error", JStr ("Kullanıcı güncellenirken hata: " ++ message))]), w1).
Proof.
  cbv zeta. split; [reflexivity |]. split; [reflexivity |].
  exact (user_modify_keyword_clash (sample_env answers_all) "bob"
           [("a_uid", NStr "eve"); ("o_mail", NNone)] connected_world
           (record_call (Client.ping 0) connected_world) 0 eq_refl eq_refl eq_refl).
Defined.

(** ** Credential reset *)

Lemma get_in (s : string) : forall i c,
  String.get i s = Some c -> In c (list_ascii_of_string s).
Proof.
  induction s as [| a rest IH]; intros i c H; [discriminate H |].
  destruct i as [| i]; cbn [String.get] in H.
  - inversion H. now left.
  - right. exact (IH i c H).
Qed.

Lemma drawn_is_alphanumeric (E : environment) (k : nat) :
  In (drawn E k) (list_ascii_of_string ALPHABET).
Proof.
  unfold drawn.
  destruct (String.get (entropy E k mod String.length ALPHABET) ALPHABET) as [c |] eqn:Hget.
  - exact (get_in _ _ _ Hget).
  - now left.
Qed.

Lemma generate_password_run (E : environment) (n : nat) : forall w,
  generate_password E n w = (Returns (password_from E n (draws w)), drew n w).
Proof.
  induction n as [| n IH]; intros w; cbn [generate_password password_from].
  - unfold ret, drew. f_equal. destruct w; cbn. f_equal. lia.
  - unfold bind at 1. unfold secrets_choice at 1. fold (drawn E (draws w)).
    unfold bind at 1. rewrite IH. cbn [draws]. unfold ret, drew. cbn.
    f_equal. f_equal. lia.
Qed.

Lemma password_from_shape (E : environment) (n : nat) : forall k,
  String.length (password_from E n k) = n /\
  forall c, In c (list_ascii_of_string (password_from E n k)) ->
            In c (list_ascii_of_string ALPHABET).
Proof.
  induction n as [| n IH]; intros k; cbn [password_from String.length list_ascii_of_string].
  - split; [reflexivity | intros c []].
  - destruct (IH (S k)) as [Hlen Hin]. split; [now rewrite Hlen |].
    intros c [<- | Hc]; [apply drawn_is_alphanumeric | now apply Hin].
Qed.

(** X21.  [generate_password(length)] never raises; the password has
    exactly [length] characters, each an ASCII letter or digit; it takes
    [length] draws from the random source, touches neither global and
    issues no backend call. *)
Theorem generate_password_shape (E : environment) (length : nat) (w : world) :
  exists password w',
    generate_password E length w = (Returns password, w') /\
    String.length password = length /\
    (forall c, In c (list_ascii_of_string password) ->
               In c (list_ascii_of_string
                       "abcdefghijklmnopqrstuvwxyzABCDEFGHIJKLMNOPQRSTUVWXYZ0123456789")) /\
    draws w' = draws w + length /\
    calls w' = calls w /\
    freeipa_client w' = freeipa_client w /\
    freeipa_connected w' = freeipa_connected w.
Proof.
  exists (password_from E length (draws w)), (drew length w).
  destruct (password_from_shape E length (draws w)) as [Hlen Hin].
  repeat split; auto. apply generate_password_run.
Qed.

Lemma among (x : string) (l : list string) :
  In x l -> existsb (String.eqb x) l = true.
Proof.
  intros Hin. apply existsb_exists. exists x. split; [exact Hin | apply String.eqb_refl].
Qed.

(** The credential reset once the phone number is verified: the password
    is drawn, set with a modify call, and replaced by the caller's choice
    with a change-password call when there is one. *)
Lemma forgot_reset_password_verified_run
    (E : environment) (username phone new_password : string)
    (w w1 : world) (h : handle) (user_info : node) (phones : list string) :
  ensure_connection E w = (Returns true, w1) ->
  freeipa_client w1 = Some h ->
  backend E (calls w1) (Client.user_show h username) = Returns user_info ->
  stored_phones E user_info phones ->
  In (normalize_phone phone) (map normalize_phone phones) ->
  let lookup := Client.user_show h username in
  let temp_password := password_from E 12 (draws w1) in
  let modify := Client.user_mod h username [("o_userpassword", NStr temp_password)] in
  let change := Client.change_password h username new_password temp_password in
  let w2 := record_call modify (drew 12 (record_call lookup w1)) in
  forgot_reset_password E username phone new_password w =
  match backend E (lookup :: calls w1) modify with
  | Raises e => (Returns (error (RESET_FAILED ++ str_exn e)), w2)
  | Returns _ =>
      if nonempty new_password
      then
        match backend E (modify :: lookup :: calls w1) change with
        | Raises e => (Returns (error (RESET_FAILED ++ str_exn e)), record_call change w2)
        | Returns _ =>
            (Returns (JDict [("result", JStr "Şifre başarıyla sıfırlandı ve yeni şifre ayarlandı.");
                             ("username", JStr username);
                             ("new_password", JStr new_password)]),
             record_call change w2)
        end
      else
        (Returns (JDict [("result", JStr "Şifre başarıyla sıfırlandı. Yeni şifre kullanıcıya iletildi.");
                         ("username", JStr username);
                         ("new_password", JStr temp_password)]),
         w2)
  end.
Proof.
  intros Hgate Hclient Hlookup (info & items & Hinfo & Hphones & Hitems) Hamong.
  cbv zeta. unfold forgot_reset_password.
  unfold bind at 1. rewrite Hgate. cbn [negb].
  unfold try_except.
  unfold bind at 1. unfold on_client at 1. unfold bind at 1, get_client at 1.
  rewrite Hclient. unfold invoke at 1. rewrite Hlookup.
  unfold bind at 1, lift at 1. rewrite Hinfo.
  unfold bind at 1, lift at 1. rewrite Hphones.
  unfold bind at 1, lift at 1. cbn [iterate]. rewrite Hitems.
  unfold bind at 1, lift at 1. rewrite normalize_stored_phones.
  assert (Hcond : negb (truthy (NList items))
                  || negb (existsb (String.eqb (normalize_phone phone))
                                   (map normalize_phone phones)) = false).
  { rewrite (among _ _ Hamong). cbn [negb orb].
    destruct phones as [| p phones]; [destruct Hamong |].
    destruct items; [discriminate Hitems | reflexivity]. }
  rewrite Hcond.
  unfold bind at 1. rewrite generate_password_run.
  cbn [draws record_call].
  unfold bind at 1. unfold on_client at 1. unfold bind at 1, get_client at 1.
  cbn [freeipa_client drew record_call]. rewrite Hclient.
  unfold invoke at 1. cbn [calls drew record_call].
  destruct (backend E (Client.user_show h username :: calls w1)
              (Client.user_mod h username
                 [("o_userpassword", NStr (password_from E 12 (draws w1)))]))
    as [rmod | e]; [| reflexivity].
  destruct (nonempty new_password); [| reflexivity].
  unfold bind at 1. unfold on_client at 1. unfold bind at 1, get_client at 1.
  cbn [freeipa_client drew record_call]. rewrite Hclient.
  unfold invoke at 1. cbn [calls drew record_call].
  destruct (backend E _ (Client.change_password h username new_password _));
    reflexivity.
Qed.

(** X22.  With the phone number verified, no new password given and the
    modify call returning, the reset issues exactly two directory calls,
    the lookup and the modify, and no change-password call; the password it
    reports is the one it set: twelve characters, letters and digits. *)
Theorem reset_without_new_password
    (E : environment) (username phone : string)
    (w w1 : world) (h : handle) (user_info r : node) (phones : list string) :
  ensure_connection E w = (Returns true, w1) ->
  freeipa_client w1 = Some h ->
  backend E (calls w1) (Client.user_show h username) = Returns user_info ->
  stored_phones E user_info phones ->
  In (normalize_phone phone) (map normalize_phone phones) ->
  let temp_password := password_from E 12 (draws w1) in
  let modify := Client.user_mod h username [("o_userpassword", NStr temp_password)] in
  backend E (Client.user_show h username :: calls w1) modify = Returns r ->
  exists w',
    forgot_reset_password E username phone EmptyString w =
      (Returns (JDict [("result", JStr "Şifre başarıyla sıfırlandı. Yeni şifre kullanıcıya iletildi.");
                       ("username", JStr username);
                       ("new_password", JStr temp_password)]), w') /\
    calls w' = modify :: Client.user_show h username :: calls w1 /\
    String.length temp_password = 12 /\
    forall c, In c (list_ascii_of_string temp_password) ->
              In c (list_ascii_of_string ALPHABET).
Proof.
  intros Hgate Hclient Hlookup Hstored Hamong temp_password modify Hmodify.
  eexists. split.
  - rewrite (forgot_reset_password_verified_run E username phone EmptyString
               w w1 h user_info phones Hgate Hclient Hlookup Hstored Hamong).
    fold temp_password. fold modify. rewrite Hmodify. cbn [nonempty String.eqb negb].
    reflexivity.
  - split; [reflexivity |]. apply password_from_shape.
Qed.

Lemma reset_without_new_password_witness :
  let E := sample_env answers_all in
  let w1 := record_call (Client.ping 0) connected_world in
  ensure_connection E connected_world = (Returns true, w1) /\
  In (normalize_phone "+90 555 123 45 67") (map normalize_phone ["0555 123-4567"]) /\
  exists w',
    forgot_reset_password E "alice" "+90 555 123 45 67" EmptyString connected_world =
      (Returns (JDict [("result", JStr "Şifre başarıyla sıfırlandı. Yeni şifre kullanıcıya iletildi.");
                       ("username", JStr "alice");
                       ("new_password", JStr "abcdefghijkl")]), w') /\
    calls w' = Client.user_mod 0 "alice" [("o_userpassword", NStr "abcdefghijkl")]
               :: Client.user_show 0 "alice" :: calls w1.
Proof.
  cbv zeta. split; [reflexivity |].
  assert (Hamong : In (normalize_phone "+90 555 123 45 67")
                      (map normalize_phone ["0555 123-4567"])) by (left; reflexivity).
  split; [exact Hamong |].
  destruct (reset_without_new_password (sample_env answers_all)
              "alice" "+90 555 123 45 67" connected_world
              (record_call (Client.ping 0) connected_world) 0
              (sample_store 0) (sample_store 0) ["0555 123-4567"]
              eq_refl eq_refl eq_refl) as (w' & Hrun & Hcalls & _).
  - exists (sample_store 1), [3]. repeat split; reflexivity.
  - exact Hamong.
  - reflexivity.
  - exists w'. split; [exact Hrun | exact Hcalls].
Defined.

(** X23.  With the phone number verified, a new password given and both
    calls returning, the reset issues exactly three directory calls:
    lookup, modify, and a change-password call with the generated password
    as the old value and the caller's choice as the new one; it reports the
    caller's choice. *)
Theorem reset_with_new_password
    (E : environment) (username phone new_password : string)
    (w w1 : world) (h : handle) (user_info r r' : node) (phones : list string) :
  ensure_connection E w = (Returns true, w1) ->
  freeipa_client w1 = Some h ->
  backend E (calls w1) (Client.user_show h username) = Returns user_info ->
  stored_phones E user_info phones ->
  In (normalize_phone phone) (map normalize_phone phones) ->
  new_password <> EmptyString ->
  let temp_password := password_from E 12 (draws w1) in
  let lookup := Client.user_show h username in
  let modify := Client.user_mod h username [("o_userpassword", NStr temp_password)] in
  let change := Client.change_password h username new_password temp_password in
  backend E (lookup :: calls w1) modify = Returns r ->
  backend E (modify :: lookup :: calls w1) change = Returns r' ->
  exists w',
    forgot_reset_password E username phone new_password w =
      (Returns (JDict [("result", JStr "Şifre başarıyla sıfırlandı ve yeni şifre ayarlandı.");
                       ("username", JStr username);
                       ("new_password", JStr new_password)]), w') /\
    calls w' = change :: modify :: lookup :: calls w1.
Proof.
  intros Hgate Hclient Hlookup Hstored Hamong Hnew temp_password lookup modify change
         Hmodify Hchange.
  assert (Hnonempty : nonempty new_password = true).
  { unfold nonempty. destruct (String.eqb new_password EmptyString) eqn:Heq;
      [| reflexivity]. apply String.eqb_eq in Heq. contradiction. }
  eexists. split.
  - rewrite (forgot_reset_password_verified_run E username phone new_password
               w w1 h user_info phones Hgate Hclient Hlookup Hstored Hamong).
    fold temp_password. fold lookup. fold modify. fold change.
    rewrite Hmodify, Hnonempty, Hchange. reflexivity.
  - reflexivity.
Qed.

Lemma reset_with_new_password_witness :
  let E := sample_env answers_all in
  let w1 := record_call (Client.ping 0) connected_world in
  ensure_connection E connected_world = (Returns true, w1) /\
  "N3w-pass" <> EmptyString /\
  exists w',
    forgot_reset_password E "alice" "0555 123 45 67" "N3w-pass" connected_world =
      (Returns (JDict [("result", JStr "Şifre başarıyla sıfırlandı ve yeni şifre ayarlandı.");
                       ("username", JStr "alice");
                       ("new_password", JStr "N3w-pass")]), w') /\
    calls w' = Client.change_password 0 "alice" "N3w-pass" "abcdefghijkl"
               :: Client.user_mod 0 "alice" [("o_userpassword", NStr "abcdefghijkl")]
               :: Client.user_show 0 "alice" :: calls w1.
Proof.
  cbv zeta. split; [reflexivity |].
  assert (Hnew : "N3w-pass" <> EmptyString) by discriminate.
  split; [exact Hnew |].
  apply (reset_with_new_password (sample_env answers_all)
           "alice" "0555 123 45 67" "N3w-pass" connected_world
           (record_call (Client.ping 0) connected_world) 0
           (sample_store 0) (sample_store 0) (sample_store 0) ["0555 123-4567"]
           eq_refl eq_refl eq_refl).
  - exists (sample_store 1), [3]. repeat split; reflexivity.
  - left. reflexivity.
  - exact Hnew.
  - reflexivity.
  - reflexivity.
Defined.

(** X24.  When the change-password call raises after the modify call has
    returned, the reset returns the error with the exception's message and
    stops: the modify call stays the last change made, nothing undoes the
    generated password.  When the modify call itself raises, no
    change-password call is issued. *)
Theorem reset_is_not_rolled_back
    (E : environment) (username phone new_password : string)
    (w w1 : world) (h : handle) (user_info : node) (phones : list string) (e : exn) :
  ensure_connection E w = (Returns true, w1) ->
  freeipa_client w1 = Some h ->
  backend E (calls w1) (Client.user_show h username) = Returns user_info ->
  stored_phones E user_info phones ->
  In (normalize_phone phone) (map normalize_phone phones) ->
  let temp_password := password_from E 12 (draws w1) in
  let lookup := Client.user_show h username in
  let modify := Client.user_mod h username [("o_userpassword", NStr temp_password)] in
  let change := Client.change_password h username new_password temp_password in
  (backend E (lookup :: calls w1) modify = Raises e ->
   fst (forgot_reset_password E username phone new_password w) =
     Returns (JDict [("error", JStr (RESET_FAILED ++ str_exn e))]) /\
   calls (snd (forgot_reset_password E username phone new_password w)) =
     modify :: lookup :: calls w1)
  /\
  (forall r, backend E (lookup :: calls w1) modify = Returns r ->
   new_password <> EmptyString ->
   backend E (modify :: lookup :: calls w1) change = Raises e ->
   fst (forgot_reset_password E username phone new_password w) =
     Returns (JDict [("error", JStr (RESET_FAILED ++ str_exn e))]) /\
   calls (snd (forgot_reset_password E username phone new_password w)) =
     change :: modify :: lookup :: calls w1).
Proof.
  intros Hgate Hclient Hlookup Hstored Hamong temp_password lookup modify change.
  rewrite (forgot_reset_password_verified_run E username phone new_password
             w w1 h user_info phones Hgate Hclient Hlookup Hstored Hamong).
  fold temp_password. fold lookup. fold modify. fold change.
  split.
  - intros Hmodify. rewrite Hmodify. split; reflexivity.
  - intros r Hmodify Hnew Hchange.
    assert (Hnonempty : nonempty new_password = true).
    { unfold nonempty. destruct (String.eqb new_password EmptyString) eqn:Heq;
        [| reflexivity]. apply String.eqb_eq in Heq. contradiction. }
    rewrite Hmodify, Hnonempty, Hchange. split; reflexivity.
Qed.

Lemma reset_is_not_rolled_back_witness :
  let E := sample_env refuses_change_password in
  let w1 := record_call (Client.ping 0) connected_world in
  ensure_connection E connected_world = (Returns true, w1) /\
  backend E (Client.user_mod 0 "alice" [("o_userpassword", NStr "abcdefghijkl")]
             :: Client.user_show 0 "alice" :: calls w1)
            (Client.change_password 0 "alice" "N3w-pass" "abcdefghijkl") =
    Raises (Exception "password policy") /\
  fst (forgot_reset_password E "alice" "0555 123 45 67" "N3w-pass" connected_world) =
    Returns (JDict [("error", JStr (RESET_FAILED ++ "password policy"))]) /\
  calls (snd (forgot_reset_password E "alice" "0555 123 45 67" "N3w-pass" connected_world)) =
    Client.change_password 0 "alice" "N3w-pass" "abcdefghijkl"
    :: Client.user_mod 0 "alice" [("o_userpassword", NStr "abcdefghijkl")]
    :: Client.user_show 0 "alice" :: calls w1.
Proof.
  cbv zeta. split; [reflexivity |]. split; [reflexivity |].
  assert (Hstored : stored_phones (sample_env refuses_change_password)
                                  (sample_store 0) ["0555 123-4567"]).
  { exists (sample_store 1), [3]. repeat split; reflexivity. }
  assert (Hamong : In (normalize_phone "0555 123 45 67")
                      (map normalize_phone ["0555 123-4567"])) by (left; reflexivity).
  assert (Hnew : "N3w-pass" <> EmptyString) by discriminate.
  exact (proj2 (reset_is_not_rolled_back (sample_env refuses_change_password)
                  "alice" "0555 123 45 67" "N3w-pass" connected_world
                  (record_call (Client.ping 0) connected_world) 0
                  (sample_store 0) ["0555 123-4567"] (Exception "password policy")
                  eq_refl eq_refl eq_refl Hstored Hamong)
               (sample_store 0) eq_refl Hnew eq_refl).
Defined.

(** ** Authentication of the history *)

Lemma logged_in_later (E : environment) (c : Client.call) (cs : list Client.call)
                      (h : handle) :
  logged_in E cs h -> logged_in E (c :: cs) h.
Proof. intros H. cbn [logged_in]. now right. Qed.

Lemma session_call_keeps_history (E : environment) (c : Client.call)
                                 (cs : list Client.call) :
  is_session_call c = true ->
  directory_calls_authenticated E cs -> directory_calls_authenticated E (c :: cs).
Proof.
  intros Hc Hcs. cbn [directory_calls_authenticated]. split; [| exact Hcs].
  unfold is_directory_call. rewrite Hc. discriminate.
Qed.

Section Stays.
  Context {A B : Type} (E : environment).

Lemma stays_ret (a : A) : stays_authenticated E (ret a).
Proof. intros w h Hh Hlog Hcs. cbn. auto. Qed.

Lemma stays_lift (o : outcome A) : stays_authenticated E (lift o).
Proof. intros w h Hh Hlog Hcs. cbn. auto. Qed.

Lemma stays_bind (m : M A) (k : A -> M B) :
  stays_authenticated E m -> (forall a, stays_authenticated E (k a)) ->
  stays_authenticated E (bind m k).
Proof.
  intros Hm Hk w h Hh Hlog Hcs. unfold bind.
  destruct (Hm w h Hh Hlog Hcs) as (H1 & H2 & H3 & H4).
  destruct (m w) as [[a | e] w1]; cbn [snd] in *; [| auto].
  destruct (Hk a w1 h H1 H3 H4) as (H5 & H6 & H7 & H8).
  repeat split; auto; congruence.
Qed.

Lemma stays_try_except (m : M A) (handler : exn -> M A) :
  stays_authenticated E m -> (forall e, stays_authenticated E (handler e)) ->
  stays_authenticated E (try_except m handler).
Proof.
  intros Hm Hk w h Hh Hlog Hcs. unfold try_except.
  destruct (Hm w h Hh Hlog Hcs) as (H1 & H2 & H3 & H4).
  destruct (m w) as [[a | e] w1]; cbn [snd] in *; [auto |].
  destruct (Hk e w1 h H1 H3 H4) as (H5 & H6 & H7 & H8).
  repeat split; auto; congruence.
Qed.

End Stays.

Lemma stays_on_client (E : environment) (method : handle -> Client.call) :
  (forall h, handle_of (method h) = Some h) ->
  stays_authenticated E (on_client E method).
Proof.
  intros Hmethod w h Hh Hlog Hcs. unfold on_client. step_monad. rewrite Hh.
  cbn [snd freeipa_client freeipa_connected calls record_call].
  repeat split; auto.
  - now apply logged_in_later.
  - intros _. exists h. split; [apply Hmethod | exact Hlog].
Qed.

Lemma stays_user_mod_with_keywords (E : environment) (uid : string)
                                   (params : list (string * node)) :
  stays_authenticated E (user_mod_with_keywords E uid params).
Proof.
  intros w h Hh Hlog Hcs. unfold user_mod_with_keywords. step_monad. rewrite Hh.
  destruct (has_keyword "a_uid" params);
    cbn [snd freeipa_client freeipa_connected calls record_call]; repeat split; auto.
  - now apply logged_in_later.
  - intros _. exists h. split; [reflexivity | exact Hlog].
Qed.

Lemma stays_generate_password (E : environment) (length : nat) :
  stays_authenticated E (generate_password E length).
Proof.
  intros w h Hh Hlog Hcs. rewrite generate_password_run. cbn. auto.
Qed.

Lemma stays_return_result (E : environment) (res default : node) :
  stays_authenticated E (return_result E res default).
Proof.
  unfold return_result.
  apply stays_bind; [apply stays_lift | intros payload].
  apply stays_bind; [apply stays_lift | intros v]. apply stays_ret.
Qed.

Ltac stay :=
  repeat lazymatch goal with
  | |- stays_authenticated _ (ret _) => apply stays_ret
  | |- stays_authenticated _ (lift _) => apply stays_lift
  | |- stays_authenticated _ (on_client _ _) =>
      apply stays_on_client; intros ?; reflexivity
  | |- stays_authenticated _ (user_mod_with_keywords _ _ _) =>
      apply stays_user_mod_with_keywords
  | |- stays_authenticated _ (generate_password _ _) => apply stays_generate_password
  | |- stays_authenticated _ (return_result _ _ _) => apply stays_return_result
  | |- stays_authenticated _ (bind _ _) => apply stays_bind; [| intros ?]
  | |- stays_authenticated _ (if ?c then _ else _) => destruct c
  | |- stays_authenticated _ (let _ := _ in _) => cbv zeta
  end.

Lemma directory_handler_stays (E : environment) (a : action) :
  is_directory_handler a = true ->
  exists body text,
    run_action E a = gated E body (fun e => ret (error (text ++ str_exn e))) /\
    stays_authenticated E body.
Proof.
  intros Ha.
  destruct a; try discriminate Ha; cbn [run_action];
    (eexists; eexists; split; [reflexivity | stay]).
Qed.

Lemma connect_freeipa_authenticated (E : environment) (w : world) :
  directory_calls_authenticated E (calls w) ->
  authenticated_session E (snd (connect_freeipa E w)).
Proof.
  intros Hcs. unfold authenticated_session, connect_freeipa. step_monad.
  set (ctor := Client.ClientMeta (FREEIPA_SERVER E) (FREEIPA_VERIFY_SSL E)).
  assert (Hctor : directory_calls_authenticated E (ctor :: calls w))
    by (now apply session_call_keeps_history).
  destruct (backend E (calls w) ctor) as [r | e]; cbn.
  - set (log := Client.login (List.length (calls w)) (FREEIPA_USERNAME E) (FREEIPA_PASSWORD E)).
    assert (Hlog : directory_calls_authenticated E (log :: ctor :: calls w))
      by (now apply session_call_keeps_history).
    destruct (backend E (ctor :: calls w) log) as [r' | e'] eqn:Hback; cbn.
    + split; [exact Hlog |]. intros _. eexists. split; [reflexivity |].
      left. exists (FREEIPA_USERNAME E), (FREEIPA_PASSWORD E), r'. auto.
    + split; [exact Hlog | discriminate].
  - split; [exact Hctor | discriminate].
Qed.

Lemma freeipa_connect_authenticated (E : environment) server username password verify_ssl
                                    (w : world) :
  directory_calls_authenticated E (calls w) ->
  authenticated_session E (snd (freeipa_connect E server username password verify_ssl w)).
Proof.
  intros Hcs. unfold authenticated_session, freeipa_connect. step_monad.
  set (ctor := Client.ClientMeta server verify_ssl).
  assert (Hctor : directory_calls_authenticated E (ctor :: calls w))
    by (now apply session_call_keeps_history).
  destruct (backend E (calls w) ctor) as [r | e];
    cbn [fst snd freeipa_client freeipa_connected calls record_call].
  - set (log := Client.login (List.length (calls w)) username password).
    assert (Hlog : directory_calls_authenticated E (log :: ctor :: calls w))
      by (now apply session_call_keeps_history).
    destruct (backend E (ctor :: calls w) log) as [r' | e'] eqn:Hback;
      cbn [fst snd freeipa_client freeipa_connected calls record_call].
    + split; [exact Hlog |]. intros _. eexists. split; [reflexivity |].
      left. exists username, password, r'. auto.
    + split; [exact Hlog | discriminate].
  - split; [exact Hctor | discriminate].
Qed.

Lemma ensure_connection_authenticated (E : environment) (w : world) :
  authenticated_session E w -> authenticated_session E (snd (ensure_connection E w)).
Proof.
  intros [Hcs Hup].
  destruct (ensure_connection_cases E w)
    as [[_ H] | [(h & r & Hc & Hh & _ & H) | (h & e & _ & _ & _ & H)]]; rewrite H.
  - now apply connect_freeipa_authenticated.
  - cbn [snd]. split; cbn [calls freeipa_client freeipa_connected record_call].
    + now apply session_call_keeps_history.
    + intros _. destruct (Hup Hc) as (h' & Hh' & Hlog). exists h'.
      split; [exact Hh' | now apply logged_in_later].
  - apply connect_freeipa_authenticated. cbn [calls record_call].
    now apply session_call_keeps_history.
Qed.

Lemma freeipa_disconnect_authenticated (E : environment) (w : world) :
  authenticated_session E w -> authenticated_session E (snd (freeipa_disconnect E w)).
Proof.
  intros [Hcs Hup].
  destruct (freeipa_disconnect_cases E w)
    as [[_ H] | [(h & r & _ & _ & H) | (h & e & Hh & _ & H)]]; rewrite H;
    cbn [snd]; split; cbn [calls freeipa_client freeipa_connected record_call cleared];
    try discriminate; try exact Hcs; try (now apply session_call_keeps_history).
  intros Hc. destruct (Hup Hc) as (h' & Hh' & Hlog). exists h'.
  split; [exact Hh' | now apply logged_in_later].
Qed.

Lemma freeipa_status_authenticated (E : environment) (w : world) :
  authenticated_session E w -> authenticated_session E (snd (freeipa_status E w)).
Proof.
  intros [Hcs Hup].
  destruct (freeipa_connected w) eqn:Hc.
  - destruct (Hup eq_refl) as (h & Hh & Hlog).
    rewrite (freeipa_status_probe E w h Hc Hh).
    assert (Hping : directory_calls_authenticated E (Client.ping h :: calls w))
      by (now apply session_call_keeps_history).
    destruct (backend E (calls w) (Client.ping h)) as [res | e];
      [destruct (safe_json_serialize_default (heap E) res) |];
      cbn [snd]; split;
      cbn [calls freeipa_client freeipa_connected record_call lowered];
      try exact Hping; try discriminate.
    intros _. exists h. split; [exact Hh | now apply logged_in_later].
  - destruct (freeipa_status_cases E w)
      as [[_ H] | [(Hc' & _) | (h & v & w' & Hc' & _)]]; try congruence.
    rewrite H. cbn [snd]. split; [exact Hcs | congruence].
Qed.

Lemma gated_authenticated (E : environment) body text (w : world) :
  stays_authenticated E body ->
  authenticated_session E w ->
  authenticated_session E
    (snd (gated E body (fun e => ret (error (text ++ str_exn e))) w)).
Proof.
  intros Hbody Hw.
  pose proof (ensure_connection_authenticated E w Hw) as Hgate.
  unfold gated, bind.
  destruct (ensure_connection E w) as [[[] | e] w1] eqn:Hrun;
    cbn [negb snd] in *; try exact Hgate.
  destruct (ensure_connection_true E w w1 Hrun) as [Hc _].
  destruct Hgate as [Hcs Hup]. destruct (Hup Hc) as (h & Hh & Hlog).
  assert (Hstay : stays_authenticated E
            (try_except body (fun e => ret (error (text ++ str_exn e))))).
  { apply stays_try_except; [exact Hbody | intros e; apply stays_ret]. }
  destruct (Hstay w1 h Hh Hlog Hcs) as (H1 & H2 & H3 & H4).
  split; [exact H4 |]. intros _. exists h. auto.
Qed.

Lemma step_authenticated (E : environment) (op : operation) (w : world) :
  authenticated_session E w -> authenticated_session E (step E op w).
Proof.
  intros Hw. destruct op as [a | |]; cbn [step].
  - destruct (is_directory_handler a) eqn:Ha.
    + destruct (directory_handler_stays E a Ha) as (body & text & Hshape & Hbody).
      rewrite Hshape. now apply gated_authenticated.
    + destruct a; try discriminate Ha; cbn [run_action].
      * apply freeipa_connect_authenticated. apply Hw.
      * now apply freeipa_disconnect_authenticated.
      * now apply freeipa_status_authenticated.
  - now apply ensure_connection_authenticated.
  - apply connect_freeipa_authenticated. apply Hw.
Qed.

(** X25.  Whatever sequence of operations runs from the initial state and
    whatever the backend answers, every directory call that is issued is
    issued on a handle on which a login call had returned before: no
    directory operation reaches the backend through a client that never
    logged in. *)
Theorem directory_calls_follow_a_login (E : environment) (ops : list operation) :
  directory_calls_authenticated E (calls (run E ops initial_world)).
Proof.
  assert (H : forall w, authenticated_session E w ->
                        authenticated_session E (run E ops w)).
  { unfold run. induction ops as [| op ops IH]; intros w Hw; cbn [fold_left].
    - exact Hw.
    - apply IH. now apply step_authenticated. }
  apply H. split; [exact I | discriminate].
Qed.
